(** * ISS satellite tracker: element cache, frame transforms, trail sampler

    A shallow embedding of [backend/tle_fetcher.py] and
    [backend/propagator.py], followed by the properties of the design
    specification that are settled on it.

    Conventions of the embedding.
    - A Python [str] is a list of Unicode code points ([list N]); string
      literals of the source are written [of_string "..."].
    - A raised exception is the [Err] case of [result]; the exception value
      keeps its class and its message.
    - The module-level dict [_cache] is a [gmap string pyval]; the process
      state [world] holds it together with what was printed and the number
      of HTTP requests issued so far.
    - [time.time()] and the epoch's day-of-year are Python floats; in the
      fetcher they are read as the rationals they denote ([Q]).  The
      subtraction of the freshness test is the one of IEEE 754 doubles,
      rounded to nearest, ties to even ([float_sub]); the arithmetic of
      the parsers is exact.  The frame transforms use [sin], [cos],
      [atan2] and [sqrt]; there a float is read as a real number ([R]),
      which has one zero, no rounding and no overflow: statements about
      a longitude use closed intervals, and statements that depend on
      the absence of overflow bound their inputs.
    - A naive [datetime] is its number of microseconds since
      0001-01-01T00:00:00, a [timedelta] its number of microseconds; both
      carry the range checks of the Python types.
    - The sgp4 package, the HTTP client, the calendar methods of
      [datetime] and the parsing and formatting builtins are collaborators
      outside the repository: they enter as the fields of the classes
      [Sgp4], [Calendar] and [Builtins] and as the [response] argument. *)

From Stdlib Require Import QArith Qround Qpower Qabs Reals Lra Lia ZArith.
From Stdlib Require Lqa.
From stdpp Require Import base gmap strings list pretty.

(* ===================================================================== *)
(** * Python runtime: strings, exceptions, results                        *)
(* ===================================================================== *)

Module py.

(** A [str] as the list of its code points. *)
Abbreviation str := (list N).

Fixpoint of_string (s : string) : str :=
  match s with
  | EmptyString => []
  | String a s' => Ascii.N_of_ascii a :: of_string s'
  end.
Arguments of_string : simpl never.

(** [str.isspace] for one code point: the characters [str.strip()] removes. *)
Definition is_space (c : N) : bool :=
  ((9 <=? c) && (c <=? 13) || (28 <=? c) && (c <=? 31) || (c =? 32)
   || (c =? 133) || (c =? 160) || (c =? 5760)
   || (8192 <=? c) && (c <=? 8202) || (c =? 8232) || (c =? 8233)
   || (c =? 8239) || (c =? 8287) || (c =? 12288))%N.

(** The line boundaries of [str.splitlines()]. *)
Definition is_linebreak (c : N) : bool :=
  ((10 <=? c) && (c <=? 13) || (28 <=? c) && (c <=? 30)
   || (c =? 133) || (c =? 8232) || (c =? 8233))%N.

Fixpoint lstrip (s : str) : str :=
  match s with
  | [] => []
  | c :: s' => if is_space c then lstrip s' else s
  end.

Definition rstrip (s : str) : str := reverse (lstrip (reverse s)).

(** [s.strip()] *)
Definition strip (s : str) : str := rstrip (lstrip s).

(** [s.splitlines()]: [cur] is the line being read, most recent character
    first.  A carriage return directly followed by a line feed is one
    boundary; a final boundary opens no further line. *)
Fixpoint splitlines_from (cur : str) (s : str) : list str :=
  match s with
  | [] => match cur with [] => [] | _ => [reverse cur] end
  | c :: s' =>
      if is_linebreak c then
        reverse cur ::
          match s' with
          | c' :: s'' =>
              if ((c =? 13) && (c' =? 10))%N then splitlines_from [] s''
              else splitlines_from [] s'
          | [] => splitlines_from [] s'
          end
      else splitlines_from (c :: cur) s'
  end.

Definition splitlines (s : str) : list str := splitlines_from [] s.

(** [s.startswith(prefix)] *)
Fixpoint startswith (s prefix : str) : bool :=
  match prefix, s with
  | [], _ => true
  | p :: prefix', c :: s' => (c =? p)%N && startswith s' prefix'
  | _ :: _, [] => false
  end.

(** Specification side: [s] is not empty and neither starts nor ends with
    a whitespace character. *)
Definition trimmed (s : str) : bool :=
  match head s, last s with
  | Some a, Some b => negb (is_space a) && negb (is_space b)
  | _, _ => false
  end.

(** Specification side: a blank line, made of whitespace only. *)
Definition blank (s : str) : bool := forallb is_space s.

(** [s[i:j]] for literal bounds [0 <= i <= j]. *)
Definition slice (i j : nat) (s : str) : str := take (j - i) (drop i s).

(** [str(n)] for an [int]. *)
Definition str_int (n : Z) : str := of_string (pretty n).

(** Exceptions, all of them subclasses of [Exception]. *)
Inductive exn :=
| ValueError (msg : str)
| RuntimeError (msg : str)
| OverflowError (msg : str)
| TypeError (msg : str)
| KeyError (key : string)
| IndexError (msg : str)
| ZeroDivisionError (msg : str)
| OtherError (cls : string) (msg : str).

(** [str(e)] *)
Definition exn_str (e : exn) : str :=
  match e with
  | ValueError msg | RuntimeError msg | OverflowError msg | TypeError msg
  | IndexError msg | ZeroDivisionError msg | OtherError _ msg => msg
  | KeyError key => of_string "'" ++ of_string key ++ of_string "'"
  end.

Inductive result (A : Type) :=
| Ok (a : A)
| Err (e : exn).
Arguments Ok {A} a.
Arguments Err {A} e.

#[export] Instance result_ret : MRet result := fun A a => Ok a.
#[export] Instance result_bind : MBind result := fun A B f m =>
  match m with
  | Ok a => f a
  | Err e => Err e
  end.

Definition is_ok {A} (m : result A) : bool :=
  match m with Ok _ => true | Err _ => false end.

(** ** [datetime] and [timedelta] *)

Local Open Scope Z_scope.

Definition US_PER_SECOND : Z := 1000000.
Definition US_PER_DAY : Z := 86400 * US_PER_SECOND.

(** [datetime.min] is 0001-01-01T00:00:00, [datetime.max] is
    9999-12-31T23:59:59.999999 (proleptic ordinal 3652059). *)
Definition DATETIME_MIN : Z := 0.
Definition DATETIME_MAX : Z := 3652059 * US_PER_DAY - 1.

(** [timedelta.min] is -999999999 days, [timedelta.max] is
    999999999 days, 23:59:59.999999. *)
Definition TIMEDELTA_MIN : Z := - 999999999 * US_PER_DAY.
Definition TIMEDELTA_MAX : Z := 1000000000 * US_PER_DAY - 1.

Definition check_datetime (us : Z) : result Z :=
  if (DATETIME_MIN <=? us) && (us <=? DATETIME_MAX) then Ok us
  else Err (OverflowError (of_string "date value out of range")).

Definition check_timedelta (us : Z) : result Z :=
  if (TIMEDELTA_MIN <=? us) && (us <=? TIMEDELTA_MAX) then Ok us
  else Err (OverflowError (of_string "days out of range")).

(** [dt + td] and [dt - td] *)
Definition datetime_add (dt td : Z) : result Z := check_datetime (dt + td).
Definition datetime_sub (dt td : Z) : result Z := check_datetime (dt - td).

(** [timedelta(minutes=m)], [timedelta(seconds=s)] for [int] arguments. *)
Definition timedelta_minutes (m : Z) : result Z :=
  check_timedelta (m * 60 * US_PER_SECOND).
Definition timedelta_seconds (s : Z) : result Z :=
  check_timedelta (s * US_PER_SECOND).

(** Round half to even, the tie-break of [timedelta] on float arguments. *)
Definition Qround_half_even (q : Q) : Z :=
  let fl := Qfloor q in
  match (q - inject_Z fl ?= 1 # 2)%Q with
  | Lt => fl
  | Gt => fl + 1
  | Eq => if Z.even fl then fl else fl + 1
  end.

(** ** Floats: IEEE 754 binary64, a double read as the rational it denotes *)

(** The [e] with [2 ^ e <= q < 2 ^ (e + 1)], for [q > 0]. *)
Definition Qlog2 (q : Q) : Z :=
  let e := (Z.log2 (Qnum q) - Z.log2 (Zpos (Qden q)))%Z in
  if Qle_bool (2 ^ e) q then e else (e - 1)%Z.

(** The exponent of the unit in the last place of the doubles around [q]:
    53 significant bits, and no exponent below that of the subnormals. *)
Definition ulp_exponent (q : Q) : Z := Z.max (Qlog2 (Qabs q) - 52) (-1074).

(** What a float operation on finite doubles returns when the exact
    result is not zero divided by zero: a double or an infinity. *)
Inductive float :=
| Finite (q : Q)
| Infinity (negative : bool).

(** The double nearest to [q], ties to the even significand; an infinity
    when that is [2 ^ 1024] or more in magnitude. *)
Definition binary64 (q : Q) : float :=
  if Qeq_bool q 0 then Finite 0
  else
    let c := ulp_exponent q in
    let r := (inject_Z (Qround_half_even (q / 2 ^ c)) * 2 ^ c)%Q in
    if Qle_bool (2 ^ 1024) (Qabs r) then Infinity (negb (Qle_bool 0 q))
    else Finite r.

(** [x - y] on floats *)
Definition float_sub (x y : Q) : float := binary64 (x - y).

(** [x < y] for a float [x] and a double [y] *)
Definition float_lt (x : float) (y : Q) : bool :=
  match x with
  | Finite q => negb (Qle_bool y q)
  | Infinity negative => negative
  end.

(** [timedelta(days=d)] for a float [d]. *)
Definition timedelta_days (d : Q) : result Z :=
  check_timedelta (Qround_half_even (d * inject_Z US_PER_DAY)).

(** Days before January 1 of [year] in the proleptic Gregorian calendar. *)
Definition days_before_year (year : Z) : Z :=
  let y := year - 1 in y * 365 + y / 4 - y / 100 + y / 400.

(** [datetime(year, 1, 1)] *)
Definition datetime_jan1 (year : Z) : result Z :=
  if (1 <=? year) && (year <=? 9999) then Ok (days_before_year year * US_PER_DAY)
  else Err (ValueError (of_string "year " ++ str_int year ++ of_string " is out of range")).

End py.
Import py.

(* ===================================================================== *)
(** * backend/tle_fetcher.py                                              *)
(* ===================================================================== *)

Module tle_fetcher.

(** The values [_cache] holds: a float under ["timestamp"], strings under
    ["name"], ["line1"] and ["line2"]. *)
Inductive pyval :=
| PyFloat (x : Q)
| PyStr (s : str).

(** The process state the fetcher reads and writes: the dict [_cache], the
    lines printed so far, and the number of HTTP requests sent so far. *)
Record world := World {
  cache : gmap string pyval;
  stdout : list str;
  requests : nat;
}.

Definition initial_world : world := World ∅ [] 0.

(** What [httpx.get(CELESTRAK_URL, timeout=10.0)], [raise_for_status()]
    and [response.text] produce when the request is made: an exception
    (timeout, connection error, error status) or the body text. *)
Inductive response :=
| NetRaise (e : exn)
| NetText (text : str).

Definition CACHE_TTL_SECONDS : Q := 3600.

(** [d[key]] *)
Definition getitem (d : gmap string pyval) (key : string) : result pyval :=
  match d !! key with
  | Some v => Ok v
  | None => Err (KeyError key)
  end.

(** [bool(d)] for a dict *)
Definition truthy (d : gmap string pyval) : bool := negb (bool_decide (d = ∅)).

(** Line 43: [_cache and (now - _cache["timestamp"]) < CACHE_TTL_SECONDS],
    the subtraction being the one of doubles. *)
Definition cache_is_fresh (now : Q) (c : gmap string pyval) : result bool :=
  if truthy c then
    ts ← getitem c "timestamp";
    match ts with
    | PyFloat t => Ok (float_lt (float_sub now t) CACHE_TTL_SECONDS)
    | PyStr _ =>
        Err (TypeError (of_string "unsupported operand type(s) for -: 'float' and 'str'"))
    end
  else Ok false.

(** Lines 44 and 74: [_cache["name"], _cache["line1"], _cache["line2"]] *)
Definition cached_tle (c : gmap string pyval) : result (pyval * pyval * pyval) :=
  name ← getitem c "name";
  line1 ← getitem c "line1";
  line2 ← getitem c "line2";
  mret (name, line1, line2).

(** Line 50: [[l.strip() for l in text.strip().splitlines() if l.strip()]] *)
Definition clean_lines (text : str) : list str :=
  strip <$> filter (λ l, strip l ≠ []) (splitlines (strip text)).

(** Lines 52-61: the length check, the three lines and the marker check. *)
Definition parse_response (text : str) : result (str * str * str) :=
  let lines := clean_lines text in
  if (length lines <? 3)%nat then
    Err (ValueError (of_string "Unexpected TLE response: " ++ take 200 text))
  else
    match lines with
    | name :: line1 :: line2 :: _ =>
        if negb (startswith line1 (of_string "1 "))
           || negb (startswith line2 (of_string "2 ")) then
          Err (ValueError (of_string "Malformed TLE lines: " ++ take 30 line1
                           ++ of_string " / " ++ take 30 line2))
        else Ok (name, line1, line2)
    | _ => Err (IndexError (of_string "list index out of range"))
    end.

(** Lines 63-66: the four item assignments. *)
Definition store (now : Q) (name line1 line2 : str)
    (c : gmap string pyval) : gmap string pyval :=
  <["line2" := PyStr line2]>
    (<["line1" := PyStr line1]>
       (<["name" := PyStr name]>
          (<["timestamp" := PyFloat now]> c))).

(** [fetch_tle()], called when [time.time()] returns [now]; [net] is what
    the provider answers if it is asked. *)
Definition fetch_tle (now : Q) (net : response) (w : world)
  : result (pyval * pyval * pyval) * world :=
  match cache_is_fresh now (cache w) with
  | Err e => (Err e, w)
  | Ok true => (cached_tle (cache w), w)
  | Ok false =>
      let sent := S (requests w) in
      let attempt :=
        match net with
        | NetRaise e => Err e
        | NetText text => parse_response text
        end in
      match attempt with
      | Ok (name, line1, line2) =>
          (Ok (PyStr name, PyStr line1, PyStr line2),
           World (store now name line1 line2 (cache w)) (stdout w) sent)
      | Err e =>
          if truthy (cache w) then
            (cached_tle (cache w),
             World (cache w)
                   (stdout w ++ [of_string "[TLE] Fetch failed (" ++ exn_str e
                                 ++ of_string "), using stale cache"])
                   sent)
          else
            (Err (RuntimeError (of_string "Could not fetch TLE and no cache available: "
                                ++ exn_str e)),
             World (cache w) (stdout w) sent)
      end
  end.

(** Specification side, in the words of the design: the response has at
    least three non-blank lines and the two data lines begin with the
    markers ["1 "] and ["2 "]. *)
Definition valid_response (text : str) : bool :=
  match filter (λ l, blank l = false) (splitlines (strip text)) with
  | _ :: line1 :: line2 :: _ =>
      startswith (strip line1) (of_string "1 ")
      && startswith (strip line2) (of_string "2 ")
  | _ => false
  end.

(** The states the process can be in: [_cache] starts empty and only
    [fetch_tle] writes it. *)
Inductive reachable : world → Prop :=
| reachable_init : reachable initial_world
| reachable_fetch now net w :
    reachable w → reachable (fetch_tle now net w).2.

(** A cache entry as one successful fetch leaves it. *)
Definition entry (ts : Q) (name line1 line2 : str) : gmap string pyval :=
  store ts name line1 line2 ∅.

(** The invariant of [_cache]: it is empty or holds one entry of
    non-empty strings without leading or trailing whitespace. *)
Definition cache_inv (c : gmap string pyval) : Prop :=
  c = ∅ ∨ ∃ ts name line1 line2,
    c = entry ts name line1 line2
    ∧ trimmed name = true ∧ trimmed line1 = true ∧ trimmed line2 = true.

(** What the [try] block of [fetch_tle] evaluates to. *)
Definition attempt (net : response) : result (str * str * str) :=
  match net with
  | NetRaise e => Err e
  | NetText text => parse_response text
  end.

(** The four ways one call can go from a reachable state. *)
Inductive outcome (now : Q) (net : response) (w : world) : Prop :=
| outcome_hit ts name line1 line2 :
    cache w = entry ts name line1 line2 →
    float_lt (float_sub now ts) CACHE_TTL_SECONDS = true →
    fetch_tle now net w = (Ok (PyStr name, PyStr line1, PyStr line2), w) →
    outcome now net w
| outcome_refresh name line1 line2 :
    cache_is_fresh now (cache w) = Ok false →
    attempt net = Ok (name, line1, line2) →
    fetch_tle now net w
    = (Ok (PyStr name, PyStr line1, PyStr line2),
       World (entry now name line1 line2) (stdout w) (S (requests w))) →
    outcome now net w
| outcome_fallback ts name line1 line2 e :
    cache w = entry ts name line1 line2 →
    float_lt (float_sub now ts) CACHE_TTL_SECONDS = false →
    attempt net = Err e →
    fetch_tle now net w
    = (Ok (PyStr name, PyStr line1, PyStr line2),
       World (cache w)
             (stdout w ++ [of_string "[TLE] Fetch failed (" ++ exn_str e
                           ++ of_string "), using stale cache"])
             (S (requests w))) →
    outcome now net w
| outcome_raise e :
    cache w = ∅ →
    attempt net = Err e →
    fetch_tle now net w
    = (Err (RuntimeError (of_string "Could not fetch TLE and no cache available: "
                          ++ exn_str e)),
       World ∅ (stdout w) (S (requests w))) →
    outcome now net w.

(** The builtins [parse_tle_epoch] calls: [int(s)], [float(s)] and
    [dt.strftime(fmt)]. *)
Class Builtins := {
  py_int : str → result Z;
  py_float : str → result Q;
  strftime : Z → str → str;
}.

Section parse.
Context `{Builtins}.

(** Line 87: [line1[18:32].strip()] *)
Definition epoch_str (line1 : str) : str := strip (slice 18 32 line1).

(** Line 89 *)
Definition epoch_year (year_2digit : Z) : Z :=
  if (year_2digit <? 57)%Z then (2000 + year_2digit)%Z else (1900 + year_2digit)%Z.

(** Lines 93-94: [datetime(year, 1, 1) + timedelta(days=day_of_year - 1)] *)
Definition epoch_datetime (year : Z) (day_of_year : Q) : result Z :=
  base ← datetime_jan1 year;
  delta ← timedelta_days (day_of_year - 1);
  datetime_add base delta.

Definition parse_tle_epoch (line1 : str) : result str :=
  year_2digit ← py_int (take 2 (epoch_str line1));
  let year := epoch_year year_2digit in
  day_of_year ← py_float (drop 2 (epoch_str line1));
  epoch_dt ← epoch_datetime year day_of_year;
  mret (strftime epoch_dt (of_string "%Y-%m-%d %H:%M:%S UTC")).

(** [round(x, ndigits)] for a float read as a rational: the nearest
    multiple of [10 ^ (- ndigits)], ties to the even one. *)
Definition Qround_digits (x : Q) (ndigits : nat) : Q :=
  (inject_Z (Qround_half_even (x * inject_Z (10 ^ Z.of_nat ndigits)))
   / inject_Z (10 ^ Z.of_nat ndigits))%Q.

(** [x / y] on floats *)
Definition Qfloat_div (x y : Q) : result Q :=
  if Qeq_bool y 0 then Err (ZeroDivisionError (of_string "float division by zero"))
  else Ok (x / y)%Q.

(** The dict [parse_tle_params] returns, by key. *)
Record tle_params := TleParams {
  inclination_deg : Q;
  raan_deg : Q;
  eccentricity : Q;
  mean_motion_rev_per_day : Q;
  period_minutes : Q;
}.

Definition parse_tle_params (line1 line2 : str) : result tle_params :=
  inclination ← py_float (strip (slice 8 16 line2));
  raan ← py_float (strip (slice 17 25 line2));
  eccentricity ← py_float (of_string "0." ++ strip (slice 26 33 line2));
  mean_motion ← py_float (strip (slice 52 63 line2));
  period_minutes ← Qfloat_div 1440 mean_motion;
  mret {| inclination_deg := Qround_digits inclination 4;
          raan_deg := Qround_digits raan 4;
          eccentricity := Qround_digits eccentricity 6;
          mean_motion_rev_per_day := Qround_digits mean_motion 8;
          period_minutes := Qround_digits period_minutes 2 |}.

End parse.

End tle_fetcher.

(* ===================================================================== *)
(** * backend/propagator.py                                               *)
(* ===================================================================== *)

Module propagator.

Local Open Scope R_scope.

(** ** The [math] module and float operators over the reals *)

(** [math.atan2(y, x)]; the reals have one zero, so the cases that depend
    on the sign of a float zero fall together: for [x < 0] and [y] the
    float [-0.0], [math.atan2] returns [-pi] where this gives [PI], the
    same half turn. *)
Definition atan2 (y x : R) : R :=
  if Rlt_dec 0 x then atan (y / x)
  else if Rlt_dec x 0 then
    if Rle_dec 0 y then atan (y / x) + PI else atan (y / x) - PI
  else if Rlt_dec 0 y then PI / 2
  else if Rlt_dec y 0 then - (PI / 2)
  else 0.

Definition math_radians (x : R) : R := x * (PI / 180).
Definition math_degrees (x : R) : R := x * (180 / PI).

(** [math.sqrt(x)]: a negative argument is a [ValueError]. *)
Definition math_sqrt (x : R) : result R :=
  if Rlt_dec x 0 then Err (ValueError (of_string "math domain error"))
  else Ok (sqrt x).

(** [x % y] on floats for a divisor [y > 0]: the remainder lies in [[0, y)]. *)
Definition float_mod (x y : R) : R := x - y * IZR (Int_part (x / y)).

(** [round(x, ndigits)]: the nearest multiple of [10 ^ (- ndigits)], ties
    to the even one. *)
Definition round_half_even (x : R) : Z :=
  let fl := Int_part x in
  if Rlt_dec (frac_part x) (1 / 2) then fl
  else if Rlt_dec (1 / 2) (frac_part x) then (fl + 1)%Z
  else if Z.even fl then fl else (fl + 1)%Z.

Definition py_round (x : R) (ndigits : nat) : R :=
  IZR (round_half_even (x * 10 ^ ndigits)) / 10 ^ ndigits.

(** [l[i]] on a list of floats *)
Definition index (l : list R) (i : nat) : result R :=
  match l !! i with
  | Some x => Ok x
  | None => Err (IndexError (of_string "list index out of range"))
  end.

(** A computation that may raise and that records, in order, the divisor
    of every float division by a computed quantity it performs.  The two
    divisions of [ecef_to_geodetic] by constants, [1.0 / 298.257223563]
    and [b * b / a], are written with the plain division. *)
Definition traced (A : Type) : Type := result A * list R.

#[export] Instance traced_ret : MRet traced := fun A a => (Ok a, []).
#[export] Instance traced_bind : MBind traced := fun A B f m =>
  match m.1 with
  | Ok a => ((f a).1, m.2 ++ (f a).2)
  | Err e => (Err e, m.2)
  end.

Definition lift {A} (m : result A) : traced A := (m, []).

(** [x / y] on floats: a zero divisor is a [ZeroDivisionError]. *)
Definition float_div (x y : R) : traced R :=
  if Req_dec_T y 0 then (Err (ZeroDivisionError (of_string "float division by zero")), [y])
  else (Ok (x / y), [y]).

(** ** Collaborators *)

(** The calendar fields of a [datetime]. *)
Record civil := Civil {
  year : Z; month : Z; day : Z;
  hour : Z; minute : Z; second : Z; microsecond : Z;
}.

(** The [datetime] methods the module uses: the field accessors, [str(dt)]
    and [dt.isoformat()]. *)
Class Calendar := {
  fields : Z → civil;
  str_datetime : Z → str;
  isoformat : Z → str;
}.

(** The sgp4 package: [Satrec.twoline2rv], [jday] and [Satrec.sgp4], which
    returns a status code, a position and a velocity. *)
Class Sgp4 := {
  satrec : Type;
  twoline2rv : str → str → result satrec;
  jday : Z → Z → Z → Z → Z → R → R * R;
  sgp4 : satrec → R → R → Z * (R * R * R) * (R * R * R);
}.

(** [list(t)] for a 3-tuple *)
Definition list_of_tuple (t : R * R * R) : list R := [t.1.1; t.1.2; t.2].

(** ** The module's functions *)

Record full_state := FullState {
  st_timestamp : str;
  st_lat : R;
  st_lon : R;
  st_alt_km : R;
  st_speed_km_s : R;
  st_r_eci : list R;
  st_v_eci : list R;
  st_r_ecef : list R;
  st_gmst_rad : R;
  st_gmst_deg : R;
}.

Record trail_point := TrailPoint {
  tp_lat : R;
  tp_lon : R;
  tp_alt_km : R;
}.

Record trail := Trail {
  past : list trail_point;
  future : list trail_point;
}.

Section functions.
Context `{Calendar} `{Sgp4}.

(** The call [jday(dt.year, dt.month, dt.day, dt.hour, dt.minute,
    dt.second + dt.microsecond / 1e6)] of lines 61-65 and 96-97. *)
Definition jday_of (dt : Z) : R * R :=
  let c := fields dt in
  jday (year c) (month c) (day c) (hour c) (minute c)
       (IZR (second c) + IZR (microsecond c) / 1e6).

Definition propagate (tle_line1 tle_line2 : str) (dt : Z)
  : result (list R * list R) :=
  sat ← twoline2rv tle_line1 tle_line2;
  let '(jd, fr) := jday_of dt in
  let '(error, r_eci, v_eci) := sgp4 sat jd fr in
  if negb (error =? 0)%Z then
    Err (ValueError (of_string "SGP4 propagation error code " ++ str_int error
                     ++ of_string " at " ++ str_datetime dt))
  else Ok (list_of_tuple r_eci, list_of_tuple v_eci).

Definition compute_gmst (dt : Z) : R :=
  let '(jd, fr) := jday_of dt in
  let jd_total := jd + fr in
  let d := jd_total - 2451545.0 in
  let theta_deg := 280.46061837 + 360.98564736629 * d in
  math_radians (float_mod theta_deg 360.0).

Definition eci_to_ecef (r_eci : list R) (gmst_rad : R) : result (list R) :=
  let cos_t := cos gmst_rad in
  let sin_t := sin gmst_rad in
  r0 ← index r_eci 0;
  r1 ← index r_eci 1;
  let x_ecef := r0 * cos_t + r1 * sin_t in
  let y_ecef := - r0 * sin_t + r1 * cos_t in
  z_ecef ← index r_eci 2;
  mret [x_ecef; y_ecef; z_ecef].

(** WGS84 constants of lines 166-168 and 198. *)
Definition wgs84_a : R := 6378.137.
Definition wgs84_f : R := 1.0 / 298.257223563.
Definition wgs84_e2 : R := 2 * wgs84_f - wgs84_f * wgs84_f.
Definition wgs84_b : R := wgs84_a * (1.0 - wgs84_f).

(** Lines 184-186: one pass of the refinement loop. *)
Definition refine (z p lat_rad : R) : traced R :=
  let sin_lat := sin lat_rad in
  root ← lift (math_sqrt (1.0 - wgs84_e2 * sin_lat * sin_lat));
  N ← float_div wgs84_a root;
  mret (atan2 (z + wgs84_e2 * N * sin_lat) p).

(** [for _ in range(n)] around [refine]. *)
Fixpoint refine_times (n : nat) (z p lat_rad : R) : traced R :=
  match n with
  | O => mret lat_rad
  | S n' => lat_rad' ← refine z p lat_rad; refine_times n' z p lat_rad'
  end.

(** Lines 165-199 of [ecef_to_geodetic]: everything before the [return],
    giving latitude and longitude in radians and the altitude. *)
Definition geodetic_rad (r_ecef : list R) : traced (R * R * R) :=
  match r_ecef with
  | [x; y; z] =>
      let lon_rad := atan2 y x in
      p ← lift (math_sqrt (x * x + y * y));
      let lat_rad := atan2 z (p * (1.0 - wgs84_e2)) in
      lat_rad ← refine_times 5 z p lat_rad;
      let sin_lat := sin lat_rad in
      let cos_lat := cos lat_rad in
      root ← lift (math_sqrt (1.0 - wgs84_e2 * sin_lat * sin_lat));
      N ← float_div wgs84_a root;
      alt_km ←
        (if Rlt_dec 1e-10 (Rabs cos_lat) then
           q ← float_div p cos_lat; mret (q - N)
         else
           q ← float_div (Rabs z) (Rabs sin_lat);
           mret (q - wgs84_b * wgs84_b / wgs84_a));
      mret (lat_rad, lon_rad, alt_km)
  | _ => lift (Err (ValueError (of_string "wrong number of values to unpack")))
  end.

(** Lines 201-205: the [return] converts the two angles to degrees. *)
Definition ecef_to_geodetic (r_ecef : list R) : traced (R * R * R) :=
  '(lat_rad, lon_rad, alt_km) ← geodetic_rad r_ecef;
  mret (math_degrees lat_rad, math_degrees lon_rad, alt_km).

(** Line 219, over the reals: the [OverflowError] of [v ** 2] for a
    component beyond about 1.3e154 has no counterpart here. *)
Definition compute_speed (v_eci : list R) : result R :=
  v0 ← index v_eci 0;
  v1 ← index v_eci 1;
  v2 ← index v_eci 2;
  math_sqrt (v0 ^ 2 + v1 ^ 2 + v2 ^ 2).

(** [utcnow] is what [datetime.datetime.utcnow()] returns if [dt] is None. *)
Definition get_full_state (utcnow : Z) (tle_line1 tle_line2 : str)
    (dt : option Z) : result full_state :=
  let dt := default utcnow dt in
  '(r_eci, v_eci) ← propagate tle_line1 tle_line2 dt;
  let gmst_rad := compute_gmst dt in
  r_ecef ← eci_to_ecef r_eci gmst_rad;
  '(lat, lon, alt) ← (ecef_to_geodetic r_ecef).1;
  speed ← compute_speed v_eci;
  mret {|
    st_timestamp := isoformat dt ++ of_string "Z";
    st_lat := py_round lat 4;
    st_lon := py_round lon 4;
    st_alt_km := py_round alt 2;
    st_speed_km_s := py_round speed 4;
    st_r_eci := (λ v, py_round v 2) <$> r_eci;
    st_v_eci := (λ v, py_round v 6) <$> v_eci;
    st_r_ecef := (λ v, py_round v 2) <$> r_ecef;
    st_gmst_rad := py_round gmst_rad 6;
    st_gmst_deg := py_round (math_degrees gmst_rad) 4;
  |}.

(** The body of the [try] of lines 293-297, repeated at lines 307-311. *)
Definition trail_point_at (tle_line1 tle_line2 : str) (t : Z)
  : result trail_point :=
  '(r_eci, _) ← propagate tle_line1 tle_line2 t;
  let gmst_rad := compute_gmst t in
  r_ecef ← eci_to_ecef r_eci gmst_rad;
  '(lat, lon, alt) ← (ecef_to_geodetic r_ecef).1;
  mret {| tp_lat := py_round lat 3; tp_lon := py_round lon 3;
          tp_alt_km := py_round alt 2 |}.

(** The loops of lines 291-300 and 305-314: [while t <= end_t], with the
    [except Exception: pass] around the sample and the increment of [t]
    outside it.  [None] is a loop still running when [fuel] passes are
    done. *)
Fixpoint walk (fuel : nat) (tle_line1 tle_line2 : str) (step_seconds : Z)
    (t end_t : Z) (points : list trail_point)
  : option (result (list trail_point)) :=
  match fuel with
  | O => None
  | S fuel' =>
      if (t <=? end_t)%Z then
        let points' :=
          match trail_point_at tle_line1 tle_line2 t with
          | Ok point => points ++ [point]
          | Err _ => points
          end in
        match step ← timedelta_seconds step_seconds; datetime_add t step with
        | Ok t' => walk fuel' tle_line1 tle_line2 step_seconds t' end_t points'
        | Err e => Some (Err e)
        end
      else Some (Ok points)
  end.

Definition compute_orbit_trail (fuel : nat) (utcnow : Z)
    (tle_line1 tle_line2 : str) (center_dt : option Z)
    (past_minutes future_minutes step_seconds : Z)
  : option (result trail) :=
  let center_dt := default utcnow center_dt in
  match back ← timedelta_minutes past_minutes; datetime_sub center_dt back with
  | Err e => Some (Err e)
  | Ok t =>
      match walk fuel tle_line1 tle_line2 step_seconds t center_dt [] with
      | None => None
      | Some (Err e) => Some (Err e)
      | Some (Ok past_points) =>
          match
            step ← timedelta_seconds step_seconds;
            t ← datetime_add center_dt step;
            ahead ← timedelta_minutes future_minutes;
            end_t ← datetime_add center_dt ahead;
            mret (t, end_t)
          with
          | Err e => Some (Err e)
          | Ok (t, end_t) =>
              match walk fuel tle_line1 tle_line2 step_seconds t end_t [] with
              | None => None
              | Some (Err e) => Some (Err e)
              | Some (Ok future_points) =>
                  Some (Ok {| past := past_points; future := future_points |})
              end
          end
      end
  end.

(** Specification side: the [n] instants [start], [start + step], ... *)
Fixpoint instants (start step : Z) (n : nat) : list Z :=
  match n with
  | O => []
  | S n' => start :: instants (start + step)%Z step n'
  end.

(** Specification side: the points of the instants whose sample raises
    nothing, in the order of the instants. *)
Definition kept_points (tle_line1 tle_line2 : str) (ts : list Z)
  : list trail_point :=
  omap (λ t, match trail_point_at tle_line1 tle_line2 t with
             | Ok point => Some point
             | Err _ => None
             end) ts.

(** Specification side: the values [ecef_to_geodetic] computes, as
    functions of the distance [p] from the polar axis and of [z]. *)
Definition root_at (lat : R) : R :=
  sqrt (1.0 - wgs84_e2 * sin lat * sin lat).

Definition refined (z p lat : R) : R :=
  atan2 (z + wgs84_e2 * (wgs84_a / root_at lat) * sin lat) p.

Fixpoint refined_times (n : nat) (z p lat : R) : R :=
  match n with
  | O => lat
  | S n' => refined_times n' z p (refined z p lat)
  end.

Fixpoint roots_times (n : nat) (z p lat : R) : list R :=
  match n with
  | O => []
  | S n' => root_at lat :: roots_times n' z p (refined z p lat)
  end.

Definition latitude_of (p z : R) : R :=
  refined_times 5 z p (atan2 z (p * (1.0 - wgs84_e2))).

Definition altitude_of (p z : R) : R :=
  let lat := latitude_of p z in
  if Rlt_dec 1e-10 (Rabs (cos lat)) then p / cos lat - wgs84_a / root_at lat
  else Rabs z / Rabs (sin lat) - wgs84_b * wgs84_b / wgs84_a.

Definition divisors_of (p z : R) : list R :=
  let lat := latitude_of p z in
  roots_times 5 z p (atan2 z (p * (1.0 - wgs84_e2)))
  ++ [root_at lat;
      if Rlt_dec 1e-10 (Rabs (cos lat)) then cos lat else Rabs (sin lat)].

End functions.

End propagator.

(* ===================================================================== *)
(** * Sample data                                                         *)
(* ===================================================================== *)

(** Concrete inputs on which the functions are run: a provider answer, a
    malformed answer, a cache filled by one fetch, and stand-ins for the
    builtins. *)
Module samples.
Import tle_fetcher.

Definition iss_name : str := of_string "ISS (ZARYA)".
Definition iss_line1 : str :=
  of_string "1 25544U 98067A   24001.00000000  .00016717  00000-0  30270-3 0  9997".
Definition iss_line2 : str :=
  of_string "2 25544  51.6416 290.4112 0005730  30.7454 132.9751 15.49560532435062".

(** The three lines as the provider sends them, with a blank line, CR LF
    line ends and padding. *)
Definition iss_text : str :=
  [13; 10]%N ++ iss_name ++ of_string "   " ++ [13; 10]%N
  ++ iss_line1 ++ [13; 10; 32; 9; 10]%N ++ iss_line2 ++ [10]%N.

Definition bad_text : str := of_string "<html>503 Service Unavailable</html>".

Definition timeout_error : exn :=
  OtherError "ReadTimeout" (of_string "The read operation timed out").

(** The process state after one successful fetch at time 0. *)
Definition warm_world : world := (fetch_tle 0 (NetText iss_text) initial_world).2.

(** [int] and [float] on plain ASCII decimal numerals. *)
Fixpoint digits_value (acc : Z) (s : str) : option Z :=
  match s with
  | [] => Some acc
  | c :: s' =>
      if ((48 <=? c) && (c <=? 57))%N
      then digits_value (10 * acc + Z.of_N c - 48)%Z s'
      else None
  end.

Definition ascii_int (s : str) : result Z :=
  match s, digits_value 0 s with
  | _ :: _, Some n => Ok n
  | _, _ => Err (ValueError (of_string "invalid literal for int()"))
  end.

Fixpoint split_at_dot (s : str) : str * str :=
  match s with
  | [] => ([], [])
  | c :: s' =>
      if (c =? 46)%N then ([], s')
      else let '(a, b) := split_at_dot s' in (c :: a, b)
  end.

Definition ascii_float (s : str) : result Q :=
  let '(whole, frac) := split_at_dot s in
  match whole, digits_value 0 (whole ++ frac) with
  | _ :: _, Some n => Ok (n # Z.to_pos (10 ^ Z.of_nat (length frac)))
  | _, _ => Err (ValueError (of_string "could not convert string to float"))
  end.

(** A [strftime] that prints the microsecond count; enough to tell two
    instants apart. *)
Definition ascii_builtins : Builtins :=
  {| py_int := ascii_int; py_float := ascii_float;
     strftime := λ dt _, str_int dt |}.

(** A calendar in which every instant reads as 2000-01-01T12:00:00, and
    the sgp4 package with its [jday] formula and a solver that answers a
    fixed state with the status [code]. *)
Definition noon_calendar : propagator.Calendar :=
  {| propagator.fields := λ _, propagator.Civil 2000 1 1 12 0 0 0;
     propagator.str_datetime := str_int;
     propagator.isoformat := str_int |}.

Definition sgp4_jday (year mon day hr minute : Z) (sec : R) : R * R :=
  ((IZR (367 * year - 7 * (year + (mon + 9) / 12) / 4 + 275 * mon / 9 + day)
    + 1721013.5)%R,
   ((sec + IZR minute * 60 + IZR hr * 3600) / 86400)%R).

Definition fixed_solver (code : Z) : propagator.Sgp4 :=
  {| propagator.satrec := unit;
     propagator.twoline2rv := λ _ _, Ok ();
     propagator.jday := sgp4_jday;
     propagator.sgp4 := λ _ _ _, (code, (6778, 0, 0)%R, (0, 7.66, 0)%R) |}.

End samples.

(* ===================================================================== *)
(** * Properties of the string helpers                                    *)
(* ===================================================================== *)

Section strings.

Lemma lstrip_split (s : str) :
  ∃ ws, s = ws ++ lstrip s ∧ blank ws = true.
Proof.
  induction s as [|c s IH]; simpl.
  - by exists [].
  - destruct (is_space c) eqn:Hc.
    + destruct IH as (ws & Hs & Hws). exists (c :: ws). split.
      * simpl. by f_equal.
      * simpl. by rewrite Hc.
    + by exists [].
Qed.

Lemma lstrip_head (s : str) (c : N) :
  head (lstrip s) = Some c → is_space c = false.
Proof.
  induction s as [|a s IH]; simpl; [done|].
  destruct (is_space a) eqn:Ha; [done|].
  simpl. by intros [= <-].
Qed.

Lemma lstrip_nil_blank (s : str) : lstrip s = [] ↔ blank s = true.
Proof.
  induction s as [|a s IH]; simpl; [done|].
  destruct (is_space a); simpl; [done|]. split; discriminate.
Qed.

Lemma blank_app (s t : str) : blank (s ++ t) = blank s && blank t.
Proof. apply forallb_app. Qed.

Lemma blank_reverse (s : str) : blank (reverse s) = blank s.
Proof.
  induction s as [|a s IH]; [done|].
  rewrite reverse_cons, blank_app, IH. simpl.
  by rewrite andb_true_r, andb_comm.
Qed.

Lemma strip_nil_blank (s : str) : strip s = [] ↔ blank s = true.
Proof.
  unfold strip, rstrip. split.
  - intros Hs. apply (f_equal reverse) in Hs.
    rewrite reverse_involutive, reverse_nil in Hs.
    apply lstrip_nil_blank in Hs. rewrite blank_reverse in Hs.
    destruct (lstrip s) as [|c t] eqn:Ht.
    + by apply lstrip_nil_blank.
    + assert (is_space c = false) as Hc by (apply (lstrip_head s); by rewrite Ht).
      simpl in Hs. by rewrite Hc in Hs.
  - intros Hs. apply lstrip_nil_blank in Hs. by rewrite Hs.
Qed.

(** What [strip] returns is empty or [trimmed]. *)
Lemma strip_trimmed (s : str) : strip s ≠ [] → trimmed (strip s) = true.
Proof.
  unfold strip, rstrip. set (t := lstrip s). set (u := lstrip (reverse t)).
  intros Hne.
  destruct (lstrip_split (reverse t)) as (ws & Hsplit & _). fold u in Hsplit.
  apply (f_equal reverse) in Hsplit.
  rewrite reverse_involutive, reverse_app in Hsplit.
  unfold trimmed. rewrite last_reverse, head_reverse.
  destruct u as [|b u'] eqn:Hu; [done|].
  assert (is_space b = false) as Hb.
  { apply (lstrip_head (reverse t)). fold u. by rewrite Hu. }
  destruct (last (b :: u')) as [a|] eqn:Hlast.
  - assert (is_space a = false) as Ha.
    { apply (lstrip_head s). fold t. rewrite Hsplit, head_app, head_reverse.
      by rewrite Hlast. }
    simpl. by rewrite Ha, Hb.
  - by apply last_None in Hlast.
Qed.

Lemma trimmed_not_nil (s : str) : trimmed s = true → s ≠ [].
Proof. by destruct s. Qed.

End strings.

(* ===================================================================== *)
(** * Properties of rounding to a double                                  *)
(* ===================================================================== *)

Section floats.

Local Open Scope Q_scope.

(** Rounding half to even moves a number by at most one half. *)
Lemma Qround_half_even_close (q : Q) :
  (q - (1 # 2) <= inject_Z (Qround_half_even q) <= q + (1 # 2)).
Proof.
  unfold Qround_half_even.
  pose proof (Qfloor_le q) as Hlo. pose proof (Qlt_floor q) as Hhi.
  rewrite inject_Z_plus in Hhi. change (inject_Z 1) with 1 in Hhi.
  destruct (Qcompare_spec (q - inject_Z (Qfloor q)) (1 # 2)) as [He|Hl|Hg].
  - destruct (Z.even (Qfloor q));
      [|rewrite inject_Z_plus; change (inject_Z 1) with 1]; split; Lqa.lra.
  - split; Lqa.lra.
  - rewrite inject_Z_plus. change (inject_Z 1) with 1. split; Lqa.lra.
Qed.

Lemma Qround_half_even_between (q : Q) (a b : Z) :
  (inject_Z a <= q <= inject_Z b) →
  (a <= Qround_half_even q <= b)%Z.
Proof.
  intros [Ha Hb]. pose proof (Qround_half_even_close q) as [Hlo Hhi].
  split.
  - destruct (Z.le_gt_cases a (Qround_half_even q)) as [|Hlt]; [done|].
    assert (Qround_half_even q + 1 <= a)%Z as Hle by lia.
    rewrite Zle_Qle, inject_Z_plus in Hle.
    change (inject_Z 1) with 1 in Hle. Lqa.lra.
  - destruct (Z.le_gt_cases (Qround_half_even q) b) as [|Hlt]; [done|].
    assert (b + 1 <= Qround_half_even q)%Z as Hle by lia.
    rewrite Zle_Qle, inject_Z_plus in Hle.
    change (inject_Z 1) with 1 in Hle. Lqa.lra.
Qed.

Lemma pow2_pos (k : Z) : 0 < 2 ^ k.
Proof. by apply Qpower_0_lt. Qed.

Lemma pow2_inject (k : Z) : (0 <= k)%Z → inject_Z (2 ^ k) == 2 ^ k.
Proof. intros Hk. by rewrite Zpower_Qpower. Qed.

Lemma pow2_split (a b : Z) : 2 ^ (a - b) * 2 ^ b == 2 ^ a.
Proof.
  rewrite <- Qpower_plus by done. by replace (a - b + b)%Z with a by lia.
Qed.

Lemma Qlog2_spec (q : Q) : 0 < q → 2 ^ Qlog2 q <= q < 2 ^ (Qlog2 q + 1).
Proof.
  intros Hq. destruct q as [n d]. unfold Qlog2. cbn [Qnum Qden].
  assert (0 < n)%Z as Hn.
  { unfold Qlt in Hq. simpl in Hq. lia. }
  set (a := Z.log2 n). set (b := Z.log2 (Z.pos d)).
  destruct (Z.log2_spec n Hn) as [Hn1 Hn2]. fold a in Hn1, Hn2.
  destruct (Z.log2_spec (Z.pos d) ltac:(lia)) as [Hd1 Hd2].
  fold b in Hd1, Hd2.
  assert (0 <= a)%Z as Ha by apply Z.log2_nonneg.
  assert (0 <= b)%Z as Hb by apply Z.log2_nonneg.
  assert (n # d == inject_Z n / inject_Z (Z.pos d)) as Hnd
    by apply Qmake_Qdiv.
  assert (0 < inject_Z (Z.pos d)) as Hdpos by done.
  assert (inject_Z (2 ^ a) <= inject_Z n) as Hn1' by (by rewrite <- Zle_Qle).
  assert (inject_Z n < inject_Z (2 ^ Z.succ a)) as Hn2'
    by (by rewrite <- Zlt_Qlt).
  assert (inject_Z (2 ^ b) <= inject_Z (Z.pos d)) as Hd1'
    by (by rewrite <- Zle_Qle).
  assert (inject_Z (Z.pos d) < inject_Z (2 ^ Z.succ b)) as Hd2'
    by (by rewrite <- Zlt_Qlt).
  rewrite pow2_inject in Hn1', Hn2', Hd1', Hd2' by lia.
  pose proof (pow2_pos b) as Hpb. pose proof (pow2_pos (Z.succ b)) as Hpsb.
  destruct (Qle_bool (2 ^ (a - b)) (n # d)) eqn:Htest.
  - apply Qle_bool_iff in Htest. split; [done|].
    rewrite Hnd. apply Qlt_shift_div_r; [done|].
    pose proof (pow2_split (Z.succ a) b) as Hs.
    replace (Z.succ a - b)%Z with (a - b + 1)%Z in Hs by lia.
    pose proof (pow2_pos (a - b + 1)) as Hp.
    set (P := 2 ^ (a - b + 1)) in *. set (B := 2 ^ b) in *.
    set (A := 2 ^ Z.succ a) in *.
    set (N := inject_Z n) in *. set (D := inject_Z (Z.pos d)) in *.
    assert (0 <= P * (D - B)) as Hprod by (apply Qmult_le_0_compat; Lqa.lra).
    Lqa.lra.
  - assert (n # d < 2 ^ (a - b)) as Hlt.
    { apply Qnot_le_lt. intros Hle. apply Qle_bool_iff in Hle. congruence. }
    replace (a - b - 1 + 1)%Z with (a - b)%Z by lia. split; [|done].
    rewrite Hnd. apply Qle_shift_div_l; [done|].
    pose proof (pow2_split a (Z.succ b)) as Hs.
    replace (a - Z.succ b)%Z with (a - b - 1)%Z in Hs by lia.
    pose proof (pow2_pos (a - b - 1)) as Hp.
    set (P := 2 ^ (a - b - 1)) in *. set (B := 2 ^ Z.succ b) in *.
    set (A := 2 ^ a) in *.
    set (N := inject_Z n) in *. set (D := inject_Z (Z.pos d)) in *.
    assert (0 <= P * (B - D)) as Hprod by (apply Qmult_le_0_compat; Lqa.lra).
    Lqa.lra.
Qed.

Lemma Qabs_pos_eq (q : Q) : 0 < q → Qabs q = q.
Proof.
  destruct q as [n d]. unfold Qlt. simpl. intros Hn.
  rewrite Z.abs_eq by lia. done.
Qed.

Lemma Qfloor_unique (q : Q) (z : Z) :
  inject_Z z <= q → q < inject_Z (z + 1) → Qfloor q = z.
Proof.
  intros Hlo Hhi.
  pose proof (Qfloor_le q) as Hfl. pose proof (Qlt_floor q) as Hfl'.
  assert (inject_Z z < inject_Z (Qfloor q + 1)) as H1 by Lqa.lra.
  assert (inject_Z (Qfloor q) < inject_Z (z + 1)) as H2 by Lqa.lra.
  rewrite <- Zlt_Qlt in H1, H2. lia.
Qed.

Lemma inject_Z_pred (k : Z) : inject_Z (k - 1) == inject_Z k - 1.
Proof.
  unfold Z.sub. rewrite inject_Z_plus, inject_Z_opp.
  change (inject_Z 1) with 1. Lqa.lra.
Qed.

Lemma Qround_half_even_below (q : Q) (k : Z) :
  q < inject_Z k + (1 # 2) → (Qround_half_even q <= k)%Z.
Proof.
  intros Hq. pose proof (Qround_half_even_close q) as [_ Hhi].
  assert (inject_Z (Qround_half_even q) < inject_Z (k + 1)) as Hlt.
  { rewrite inject_Z_plus. change (inject_Z 1) with 1. Lqa.lra. }
  rewrite <- Zlt_Qlt in Hlt. lia.
Qed.

Lemma Qround_half_even_above (q : Q) (k : Z) :
  inject_Z k - (1 # 2) < q → (k <= Qround_half_even q)%Z.
Proof.
  intros Hq. pose proof (Qround_half_even_close q) as [Hlo _].
  assert (inject_Z (k - 1) < inject_Z (Qround_half_even q)) as Hlt.
  { rewrite inject_Z_pred. Lqa.lra. }
  rewrite <- Zlt_Qlt in Hlt. lia.
Qed.

Lemma Qround_half_even_tie (q : Q) (k : Z) :
  q == inject_Z k - (1 # 2) → Z.even k = true → Qround_half_even q = k.
Proof.
  intros Hq Heven.
  assert (Qfloor q = (k - 1)%Z) as Hfl.
  { apply Qfloor_unique.
    - rewrite inject_Z_pred. Lqa.lra.
    - replace (k - 1 + 1)%Z with k by lia. Lqa.lra. }
  unfold Qround_half_even. rewrite Hfl.
  assert (q - inject_Z (k - 1) == 1 # 2) as Hhalf.
  { rewrite inject_Z_pred. Lqa.lra. }
  apply Qeq_alt in Hhalf. rewrite Hhalf.
  replace (k - 1)%Z with (Z.pred k) by lia.
  rewrite Z.even_pred, <- Z.negb_even, Heven. simpl. lia.
Qed.

(** The freshness test of a cache entry in double arithmetic: the
    rounded difference is below 3600 exactly when the exact difference is
    below [3600 - 2 ^ -42], half a unit in the last place under 3600. *)
Lemma binary64_below_3600 (x : Q) :
  float_lt (binary64 x) 3600 = true ↔ x < 3600 - (1 # 4398046511104).
Proof.
  set (T := 3600 - (1 # 4398046511104)).
  assert ((x < T → float_lt (binary64 x) 3600 = true)
          ∧ (T <= x → float_lt (binary64 x) 3600 = false)) as [Hfresh Hstale].
  2: { split; [|done]. intros Hlt.
       destruct (Qlt_le_dec x T) as [|Hge]; [done|].
       rewrite (Hstale Hge) in Hlt. done. }
  unfold binary64.
  destruct (Qeq_bool x 0) eqn:Hzero.
  { apply Qeq_bool_iff in Hzero. split; [done|].
    intros Hge. unfold T in Hge. exfalso. Lqa.lra. }
  assert (¬ x == 0) as Hnz.
  { intros Hx. apply Qeq_bool_iff in Hx. congruence. }
  set (c := ulp_exponent x).
  pose proof (pow2_pos c) as HP.
  set (m := Qround_half_even (x / 2 ^ c)).
  assert (x / 2 ^ c * 2 ^ c == x) as Hq by (field; Lqa.lra).
  pose proof (Qround_half_even_close (x / 2 ^ c)) as Hclose. fold m in Hclose.
  destruct (Qlt_le_dec x 0) as [Hneg|Hpos].
  - (* negative differences *)
    assert (negb (Qle_bool 0 x) = true) as Hsign.
    { destruct (Qle_bool 0 x) eqn:Hb; [|done].
      apply Qle_bool_iff in Hb. Lqa.lra. }
    split; [|intros Hge; unfold T in Hge; exfalso; Lqa.lra].
    intros _. rewrite Hsign.
    destruct (Qle_bool (2 ^ 1024) _); [done|]. cbn [float_lt].
    assert (m <= 0)%Z as Hm.
    { apply Qround_half_even_below. change (inject_Z 0) with 0.
      set (P := 2 ^ c) in *. set (q := x / P) in *.
      assert (q < 0); [|Lqa.lra].
      destruct (Qlt_le_dec q 0) as [|Hq0]; [done|].
      assert (0 <= q * P) by (apply Qmult_le_0_compat; Lqa.lra). Lqa.lra. }
    assert (inject_Z m * 2 ^ c <= 0) as Hr.
    { rewrite Zle_Qle in Hm. change (inject_Z 0) with 0 in Hm.
      set (P := 2 ^ c) in *. set (M := inject_Z m) in *.
      assert (0 <= (- M) * P) by (apply Qmult_le_0_compat; Lqa.lra).
      Lqa.lra. }
    destruct (Qle_bool 3600 _) eqn:Hb; [|done].
    apply Qle_bool_iff in Hb. Lqa.lra.
  - assert (0 < x) as Hx by (apply Qle_lteq in Hpos as [|Heq]; [done|];
                             by symmetry in Heq).
    assert (negb (Qle_bool 0 x) = false) as Hsign.
    { destruct (Qle_bool 0 x) eqn:Hb; [done|].
      assert (Qle_bool 0 x = true) by (apply Qle_bool_iff; Lqa.lra).
      congruence. }
    rewrite Hsign.
    set (e := Qlog2 x).
    assert (c = Z.max (e - 52) (-1074)) as Hc.
    { unfold c, ulp_exponent. by rewrite Qabs_pos_eq. }
    destruct (Qlog2_spec x Hx) as [He1 He2]. fold e in He1, He2.
    destruct (Qlt_le_dec x 4096) as [Hsmall|Hbig].
    + (* below 4096 the exponent is at most 11 and nothing overflows *)
      assert (2 ^ 12 == 4096) as H12 by done.
      assert (e < 12)%Z as He.
      { apply (Qpower_lt_compat_l_inv 2); [|done]. rewrite H12. Lqa.lra. }
      assert (c <= -41)%Z as Hc41 by lia.
      assert (2 ^ c <= 1) as HP1.
      { change 1 with (2 ^ 0). apply Qpower_le_compat_l; [lia|done]. }
      assert (2 ^ (c - 1) <= 1 # 4398046511104) as Hhalf.
      { assert (2 ^ (-42) == 1 # 4398046511104) as <- by done.
        apply Qpower_le_compat_l; [lia|done]. }
      pose proof (pow2_split c 1) as Hsplit.
      assert (2 ^ 1 == 2) as H21 by done. rewrite H21 in Hsplit.
      pose proof (pow2_split 0 c) as Hinv.
      assert (2 ^ 0 == 1) as H20 by done. rewrite H20 in Hinv.
      cbn [Z.sub Z.add] in Hinv.
      assert (0 <= - c)%Z as Hk by lia.
      pose proof (pow2_inject (- c) Hk) as Hinj.
      pose proof (pow2_pos (c - 1)) as HPh.
      pose proof (pow2_pos (- c)) as HPk.
      set (Mz := (3600 * 2 ^ (- c))%Z).
      assert (inject_Z Mz * 2 ^ c == 3600) as HM.
      { unfold Mz. rewrite inject_Z_mult, Hinj.
        change (inject_Z 3600) with 3600.
        rewrite <- Qmult_assoc, Hinv. Lqa.lra. }
      assert (0 < x / 2 ^ c) as Hqpos.
      { apply Qlt_shift_div_l; [done|]. Lqa.lra. }
      assert (0 <= m)%Z as Hm0.
      { apply Qround_half_even_above. change (inject_Z 0) with 0. Lqa.lra. }
      rewrite Zle_Qle in Hm0. change (inject_Z 0) with 0 in Hm0.
      set (P := 2 ^ c) in *. set (Ph := 2 ^ (c - 1)) in *.
      set (q := x / P) in *. set (Mq := inject_Z m) in *.
      set (MQ := inject_Z Mz) in *.
      assert (0 <= Mq * P) as Hr0 by (by apply Qmult_le_0_compat; Lqa.lra).
      assert (Mq * P <= x + Ph) as Hrhi.
      { assert (0 <= (q + (1 # 2) - Mq) * P) as Hprod
          by (apply Qmult_le_0_compat; Lqa.lra).
        Lqa.lra. }
      assert (Qle_bool (2 ^ 1024) (Qabs (Mq * P)) = false) as ->.
      { destruct (Qle_bool (2 ^ 1024) (Qabs (Mq * P))) eqn:Hb; [|done].
        apply Qle_bool_iff in Hb. rewrite Qabs_pos in Hb by done.
        assert (2 ^ 13 <= 2 ^ 1024) as Hbig
          by (apply Qpower_le_compat_l; [lia|done]).
        assert (2 ^ 13 == 8192) as H13 by done. rewrite H13 in Hbig.
        exfalso. Lqa.lra. }
      cbn [float_lt]. split.
      * intros Hlt. unfold T in Hlt.
        assert (m <= Mz - 1)%Z as Hm.
        { apply Qround_half_even_below. rewrite inject_Z_pred. fold MQ q.
          destruct (Qlt_le_dec q (MQ - 1 + (1 # 2))) as [|Hge]; [done|].
          assert (0 <= (q - (MQ - 1 + (1 # 2))) * P) as Hprod
            by (apply Qmult_le_0_compat; Lqa.lra).
          exfalso. Lqa.lra. }
        rewrite Zle_Qle, inject_Z_pred in Hm. fold Mq MQ in Hm.
        assert (0 <= (MQ - 1 - Mq) * P) as Hprod
          by (apply Qmult_le_0_compat; Lqa.lra).
        destruct (Qle_bool 3600 (Mq * P)) eqn:Hb; [|done].
        apply Qle_bool_iff in Hb. exfalso. Lqa.lra.
      * intros Hge. unfold T in Hge.
        assert (2 ^ 11 == 2048) as H11 by done.
        assert (11 < e + 1)%Z as He11.
        { apply (Qpower_lt_compat_l_inv 2); [|done]. rewrite H11. Lqa.lra. }
        assert (c = (-41)%Z) as Hc' by lia.
        assert (P == 1 # 2199023255552) as HPv.
        { unfold P. rewrite Hc'. done. }
        assert (Mz = 7916483719987200%Z) as HMz.
        { unfold Mz. rewrite Hc'. done. }
        assert (MQ - (1 # 2) <= q) as Hq12.
        { destruct (Qlt_le_dec q (MQ - (1 # 2))) as [Hlt|]; [|done].
          assert (0 < (MQ - (1 # 2) - q) * P) as Hprod
            by (apply Qmult_lt_0_compat; Lqa.lra).
          exfalso. Lqa.lra. }
        assert (Mz <= m)%Z as Hm.
        { apply Qle_lteq in Hq12 as [Hgt|Htie].
          - by apply Qround_half_even_above.
          - unfold m. fold q.
            rewrite (Qround_half_even_tie q Mz); [done|by symmetry|].
            by rewrite HMz. }
        rewrite Zle_Qle in Hm. fold Mq MQ in Hm.
        assert (0 <= (Mq - MQ) * P) as Hprod
          by (apply Qmult_le_0_compat; Lqa.lra).
        assert (Qle_bool 3600 (Mq * P) = true) as ->; [|done].
        apply Qle_bool_iff. Lqa.lra.
    + (* from 4096 on the rounded value is at least 4096 *)
      assert (2 ^ 12 == 4096) as H12 by done.
      assert (12 < e + 1)%Z as He.
      { apply (Qpower_lt_compat_l_inv 2); [|done]. rewrite H12. Lqa.lra. }
      assert (0 <= e - c)%Z as Hk by lia.
      pose proof (pow2_split e c) as Hsplit.
      pose proof (pow2_inject (e - c) Hk) as Hinj.
      assert (2 ^ 12 <= 2 ^ e) as Hfloor
        by (apply Qpower_le_compat_l; [lia|done]).
      rewrite H12 in Hfloor.
      assert (2 ^ (e - c) <= x / 2 ^ c) as Hq2.
      { apply Qle_shift_div_l; [done|]. by rewrite Hsplit. }
      assert (2 ^ (e - c) <= m)%Z as Hm.
      { apply Qround_half_even_above. rewrite Hinj. Lqa.lra. }
      rewrite Zle_Qle, Hinj in Hm.
      set (P := 2 ^ c) in *. set (K := 2 ^ (e - c)) in *.
      set (Mq := inject_Z m) in *. set (E := 2 ^ e) in *.
      assert (0 <= (Mq - K) * P) as Hprod
        by (apply Qmult_le_0_compat; Lqa.lra).
      split; [intros Hlt; unfold T in Hlt; exfalso; Lqa.lra|]. intros _.
      destruct (Qle_bool (2 ^ 1024) _); [done|]. cbn [float_lt].
      assert (Qle_bool 3600 (Mq * P) = true) as ->; [|done].
      apply Qle_bool_iff. Lqa.lra.
Qed.

End floats.

(* ===================================================================== *)
(** * Properties of the element cache and fetcher                         *)
(* ===================================================================== *)

Import tle_fetcher.

Section fetcher.

Implicit Types (c : gmap string pyval) (w : world) (now ts : Q)
  (name text : str).

Lemma entry_timestamp ts name line1 line2 :
  entry ts name line1 line2 !! "timestamp" = Some (PyFloat ts).
Proof. unfold entry, store. by simplify_map_eq. Qed.

Lemma entry_name ts name line1 line2 :
  entry ts name line1 line2 !! "name" = Some (PyStr name).
Proof. unfold entry, store. by simplify_map_eq. Qed.

Lemma entry_line1 ts name line1 line2 :
  entry ts name line1 line2 !! "line1" = Some (PyStr line1).
Proof. unfold entry, store. by simplify_map_eq. Qed.

Lemma entry_line2 ts name line1 line2 :
  entry ts name line1 line2 !! "line2" = Some (PyStr line2).
Proof. unfold entry, store. by simplify_map_eq. Qed.

Lemma entry_not_empty ts name line1 line2 : entry ts name line1 line2 ≠ ∅.
Proof. unfold entry, store. apply insert_non_empty. Qed.

Lemma truthy_entry ts name line1 line2 :
  truthy (entry ts name line1 line2) = true.
Proof.
  unfold truthy. rewrite bool_decide_eq_false_2; [done|]. apply entry_not_empty.
Qed.

Lemma truthy_empty : truthy ∅ = false.
Proof. unfold truthy. by rewrite bool_decide_eq_true_2. Qed.

Lemma truthy_true c : truthy c = true ↔ c ≠ ∅.
Proof.
  unfold truthy. rewrite negb_true_iff, bool_decide_eq_false. done.
Qed.

(** The four assignments overwrite whatever entry was there. *)
Lemma store_over_entry now name line1 line2 ts name' line1' line2' :
  store now name line1 line2 (entry ts name' line1' line2')
  = entry now name line1 line2.
Proof.
  unfold entry, store. apply map_eq. intros k.
  destruct (decide (k = "line2")) as [->|?]; [by simplify_map_eq|].
  destruct (decide (k = "line1")) as [->|?]; [by simplify_map_eq|].
  destruct (decide (k = "name")) as [->|?]; [by simplify_map_eq|].
  destruct (decide (k = "timestamp")) as [->|?]; by simplify_map_eq.
Qed.

Lemma cached_tle_entry ts name line1 line2 :
  cached_tle (entry ts name line1 line2)
  = Ok (PyStr name, PyStr line1, PyStr line2).
Proof.
  unfold cached_tle, getitem.
  by rewrite entry_name, entry_line1, entry_line2.
Qed.

Lemma cache_is_fresh_entry now ts name line1 line2 :
  cache_is_fresh now (entry ts name line1 line2)
  = Ok (float_lt (float_sub now ts) CACHE_TTL_SECONDS).
Proof.
  unfold cache_is_fresh, getitem. by rewrite truthy_entry, entry_timestamp.
Qed.

Lemma cache_is_fresh_empty now : cache_is_fresh now ∅ = Ok false.
Proof. unfold cache_is_fresh. by rewrite truthy_empty. Qed.

(** The test of line 43 on the exact age of the entry. *)
Lemma float_sub_fresh now ts :
  float_lt (float_sub now ts) CACHE_TTL_SECONDS = true
  ↔ (now - ts < 3600 - (1 # 4398046511104))%Q.
Proof. apply binary64_below_3600. Qed.

Lemma float_sub_stale now ts :
  (3600 <= now - ts)%Q →
  float_lt (float_sub now ts) CACHE_TTL_SECONDS = false.
Proof.
  intros Hold.
  destruct (float_lt (float_sub now ts) CACHE_TTL_SECONDS) eqn:Hb; [|done].
  apply float_sub_fresh in Hb. exfalso. Lqa.lra.
Qed.

(** The lines the comprehension keeps are exactly the non-blank ones. *)
Lemma clean_lines_blank text :
  clean_lines text
  = strip <$> filter (λ l, blank l = false) (splitlines (strip text)).
Proof.
  unfold clean_lines. f_equal. apply list_filter_iff. intros l.
  rewrite strip_nil_blank. by destruct (blank l).
Qed.

Lemma clean_lines_trimmed text :
  Forall (λ l, trimmed l = true) (clean_lines text).
Proof.
  unfold clean_lines. apply Forall_fmap, Forall_forall. intros l Hl.
  apply list_elem_of_filter in Hl as [Hl _]. by apply strip_trimmed.
Qed.

(** [parse_response] succeeds exactly on the responses the design calls
    valid, and otherwise raises a [ValueError]. *)
Lemma parse_response_valid text :
  valid_response text = true →
  ∃ name line1 line2 rest,
    clean_lines text = name :: line1 :: line2 :: rest
    ∧ parse_response text = Ok (name, line1, line2).
Proof.
  unfold valid_response, parse_response. rewrite clean_lines_blank.
  destruct (filter _ _) as [|l0 [|l1 [|l2 rest]]]; try done.
  intros [H1 H2]%andb_true_iff. simpl. rewrite H1, H2. simpl. eauto 10.
Qed.

Lemma parse_response_invalid text :
  valid_response text = false →
  ∃ msg, parse_response text = Err (ValueError msg).
Proof.
  unfold valid_response, parse_response. rewrite clean_lines_blank.
  destruct (filter _ _) as [|l0 [|l1 [|l2 rest]]]; simpl; eauto.
  intros [H|H]%andb_false_iff; rewrite H; simpl; eauto.
  rewrite orb_true_r. eauto.
Qed.

Lemma parse_response_trimmed text name line1 line2 :
  parse_response text = Ok (name, line1, line2) →
  (∃ rest, clean_lines text = name :: line1 :: line2 :: rest)
  ∧ trimmed name = true ∧ trimmed line1 = true ∧ trimmed line2 = true.
Proof.
  unfold parse_response. pose proof (clean_lines_trimmed text) as Hall.
  destruct (clean_lines text) as [|l0 [|l1 [|l2 rest]]]; simpl; try done.
  destruct (negb _ || negb _); [done|]. intros [= <- <- <-].
  inversion Hall as [|? ? H0 Hall1]; subst.
  inversion Hall1 as [|? ? H1 Hall2]; subst.
  inversion Hall2 as [|? ? H2 _]; subst. eauto.
Qed.

(** ** The cache invariant *)

Lemma store_inv now name line1 line2 c :
  cache_inv c → store now name line1 line2 c = entry now name line1 line2.
Proof.
  intros [->|(ts & n & a & b & -> & _)]; [done|apply store_over_entry].
Qed.

Lemma fetch_tle_inv now net w :
  cache_inv (cache w) → cache_inv (cache (fetch_tle now net w).2).
Proof.
  intros Hinv. unfold fetch_tle.
  destruct (cache_is_fresh now (cache w)) as [[|]|]; simpl; try done.
  destruct net as [e|text]; simpl.
  - by destruct (truthy (cache w)).
  - destruct (parse_response text) as [[[name line1] line2]|e] eqn:Hp; simpl.
    + rewrite (store_inv _ _ _ _ _ Hinv). right.
      apply parse_response_trimmed in Hp as (_ & ? & ? & ?). eauto 10.
    + by destruct (truthy (cache w)).
Qed.

Lemma reachable_inv w : reachable w → cache_inv (cache w).
Proof.
  induction 1 as [|now net w _ IH]; [by left|by apply fetch_tle_inv].
Qed.

End fetcher.

Import samples.

Example clean_lines_iss_text :
  clean_lines iss_text = [iss_name; iss_line1; iss_line2].
Proof. by vm_compute. Qed.

Example epoch_str_iss_line1 : epoch_str iss_line1 = of_string "24001.00000000".
Proof. by vm_compute. Qed.

Lemma warm_world_cache :
  cache warm_world = entry 0 iss_name iss_line1 iss_line2.
Proof. by vm_compute. Qed.

Lemma warm_world_reachable : reachable warm_world.
Proof. apply reachable_fetch, reachable_init. Qed.

Section fetcher_claims.

(** A non-empty reachable cache is one entry, and a call that has to ask
    the provider and gets no usable answer returns that entry. *)
Lemma fetch_tle_fallback (now : Q) (net : response) (e : exn) (w : world) :
  reachable w → cache w ≠ ∅ →
  cache_is_fresh now (cache w) = Ok false →
  match net with NetRaise e' => Err e' | NetText text => parse_response text end
    = Err e →
  ∃ ts name line1 line2,
    cache w = entry ts name line1 line2
    ∧ fetch_tle now net w
      = (Ok (PyStr name, PyStr line1, PyStr line2),
         World (cache w)
               (stdout w ++ [of_string "[TLE] Fetch failed (" ++ exn_str e
                             ++ of_string "), using stale cache"])
               (S (requests w))).
Proof.
  intros Hw Hne Hstale Hnet.
  destruct (reachable_inv w Hw) as [?|(ts & name & line1 & line2 & Hc & _)];
    [done|].
  exists ts, name, line1, line2. split; [done|].
  unfold fetch_tle. rewrite Hstale, Hnet, Hc, truthy_entry, cached_tle_entry.
  done.
Qed.

Lemma fetch_tle_no_cache (now : Q) (net : response) (e : exn) (w : world) :
  cache w = ∅ →
  match net with NetRaise e' => Err e' | NetText text => parse_response text end
    = Err e →
  fetch_tle now net w
  = (Err (RuntimeError (of_string "Could not fetch TLE and no cache available: "
                        ++ exn_str e)),
     World ∅ (stdout w) (S (requests w))).
Proof.
  intros Hc Hnet. unfold fetch_tle.
  by rewrite Hc, cache_is_fresh_empty, Hnet, truthy_empty.
Qed.

Lemma fetch_tle_hit (now ts : Q) (name line1 line2 : str) (net : response)
    (w : world) :
  cache w = entry ts name line1 line2 →
  float_lt (float_sub now ts) CACHE_TTL_SECONDS = true →
  fetch_tle now net w = (Ok (PyStr name, PyStr line1, PyStr line2), w).
Proof.
  intros Hc Hlt. unfold fetch_tle.
  rewrite Hc, cache_is_fresh_entry, Hlt. by rewrite cached_tle_entry.
Qed.

Lemma fetch_tle_refresh (now : Q) (text name line1 line2 : str) (w : world) :
  reachable w →
  cache_is_fresh now (cache w) = Ok false →
  parse_response text = Ok (name, line1, line2) →
  fetch_tle now (NetText text) w
  = (Ok (PyStr name, PyStr line1, PyStr line2),
     World (entry now name line1 line2) (stdout w) (S (requests w))).
Proof.
  intros Hw Hstale Hp. unfold fetch_tle. rewrite Hstale, Hp.
  by rewrite (store_inv _ _ _ _ _ (reachable_inv w Hw)).
Qed.

(** C1, as the code has it: a response that fails validation is handled
    like a failed retrieval.  When the cache has to be refreshed and the
    response has fewer than three non-blank lines or lacks the markers
    ["1 "] and ["2 "], validation raises a [ValueError]; [fetch_tle]
    raises to its caller only if no cache entry exists (a [RuntimeError]
    carrying the validation message), and otherwise returns the cached
    element set and leaves the cache as it was. *)
Theorem invalid_response_falls_back_like_fetch_failure
    (now : Q) (text : str) (w : world)
    (Hw : reachable w)
    (Hstale : cache_is_fresh now (cache w) = Ok false)
    (Hbad : valid_response text = false) :
  ∃ msg,
    parse_response text = Err (ValueError msg)
    ∧ (cache w = ∅ →
       (fetch_tle now (NetText text) w).1
       = Err (RuntimeError
                (of_string "Could not fetch TLE and no cache available: " ++ msg)))
    ∧ (cache w ≠ ∅ →
       ∃ ts name line1 line2,
         cache w = entry ts name line1 line2
         ∧ (fetch_tle now (NetText text) w).1
           = Ok (PyStr name, PyStr line1, PyStr line2)
         ∧ cache (fetch_tle now (NetText text) w).2 = cache w).
Proof.
  destruct (parse_response_invalid text Hbad) as [msg Hp].
  exists msg. split; [done|]. split.
  - intros Hc. by rewrite (fetch_tle_no_cache now (NetText text) (ValueError msg) w Hc Hp).
  - intros Hne.
    destruct (fetch_tle_fallback now (NetText text) (ValueError msg) w
                Hw Hne Hstale Hp) as (ts & name & line1 & line2 & Hc & Hf).
    exists ts, name, line1, line2. by rewrite Hf.
Qed.

Lemma invalid_response_falls_back_witness :
  (fetch_tle 7200 (NetText bad_text) warm_world).1
  = Ok (PyStr iss_name, PyStr iss_line1, PyStr iss_line2).
Proof.
  destruct (invalid_response_falls_back_like_fetch_failure
              7200 bad_text warm_world warm_world_reachable
              ltac:(by vm_compute) ltac:(by vm_compute))
    as (msg & _ & _ & Hhit).
  destruct Hhit as (ts & name & line1 & line2 & Hc & Hr & _).
  - rewrite warm_world_cache. apply entry_not_empty.
  - by vm_compute.
Defined.

(** C1, as stated, fails: with a stale cache entry, a response that fails
    validation raises nothing; the stale element set is returned. *)
Lemma invalid_response_with_stale_cache_raises_nothing :
  reachable warm_world
  ∧ cache_is_fresh 7200 (cache warm_world) = Ok false
  ∧ valid_response bad_text = false
  ∧ is_ok (parse_response bad_text) = false
  ∧ (fetch_tle 7200 (NetText bad_text) warm_world).1
    = Ok (PyStr iss_name, PyStr iss_line1, PyStr iss_line2).
Proof.
  split; [apply warm_world_reachable|]. by vm_compute.
Qed.

(** C3: when the retrieval fails, [fetch_tle] returns the cached element
    set if a cache entry exists, however old, and raises nothing; with no
    cache entry it raises the fetch error. *)
Theorem fetch_failure_returns_stale_cache_or_raises
    (now : Q) (e : exn) (w : world) (Hw : reachable w) :
  (cache w ≠ ∅ →
   ∃ ts name line1 line2,
     cache w = entry ts name line1 line2
     ∧ (fetch_tle now (NetRaise e) w).1
       = Ok (PyStr name, PyStr line1, PyStr line2)
     ∧ cache (fetch_tle now (NetRaise e) w).2 = cache w)
  ∧ (cache w = ∅ →
     (fetch_tle now (NetRaise e) w).1
     = Err (RuntimeError
              (of_string "Could not fetch TLE and no cache available: "
               ++ exn_str e))).
Proof.
  split.
  - intros Hne.
    destruct (reachable_inv w Hw) as [?|(ts & name & line1 & line2 & Hc & _)];
      [done|].
    exists ts, name, line1, line2. split; [done|].
    destruct (float_lt (float_sub now ts) CACHE_TTL_SECONDS) eqn:Hfresh.
    + by rewrite (fetch_tle_hit now ts name line1 line2 _ w Hc Hfresh).
    + assert (cache_is_fresh now (cache w) = Ok false) as Hstale
        by (by rewrite Hc, cache_is_fresh_entry, Hfresh).
      destruct (fetch_tle_fallback now (NetRaise e) e w Hw Hne Hstale eq_refl)
        as (ts' & name' & line1' & line2' & Hc' & Hf).
      rewrite Hf. simpl. split; [|done].
      rewrite Hc in Hc'.
      pose proof (entry_name ts name line1 line2) as Hn.
      pose proof (entry_line1 ts name line1 line2) as H1.
      pose proof (entry_line2 ts name line1 line2) as H2.
      rewrite Hc' in Hn, H1, H2.
      rewrite entry_name in Hn. rewrite entry_line1 in H1.
      rewrite entry_line2 in H2. congruence.
  - intros Hc. by rewrite (fetch_tle_no_cache now (NetRaise e) e w Hc eq_refl).
Qed.

Lemma fetch_failure_witness :
  (∃ name line1 line2,
     (fetch_tle 7200 (NetRaise timeout_error) warm_world).1
     = Ok (PyStr name, PyStr line1, PyStr line2))
  ∧ (fetch_tle 7200 (NetRaise timeout_error) initial_world).1
    = Err (RuntimeError
             (of_string "Could not fetch TLE and no cache available: "
              ++ exn_str timeout_error)).
Proof.
  split.
  - destruct (fetch_failure_returns_stale_cache_or_raises
                7200 timeout_error warm_world warm_world_reachable)
      as [Hsome _].
    destruct Hsome as (ts & name & line1 & line2 & _ & Hr & _).
    + rewrite warm_world_cache. apply entry_not_empty.
    + eauto.
  - by apply (fetch_failure_returns_stale_cache_or_raises
                7200 timeout_error initial_world reachable_init).
Defined.

(** C4, as the code has it: line 43 subtracts the two clock readings as
    doubles.  While that rounded difference is below 3600, which is the
    case exactly when the exact age of the entry is below 3600 s by more
    than 2^-42 s, [fetch_tle] returns the element set of the entry and
    changes nothing: it sends no request and its answer does not depend
    on the provider; and the entry is what the latest successful
    retrieval returned and stored. *)
Theorem fresh_cache_hit_without_network :
  (∀ (now ts : Q) (name line1 line2 : str) (net : response) (w : world),
     cache w = entry ts name line1 line2 →
     float_lt (float_sub now ts) 3600 = true →
     fetch_tle now net w = (Ok (PyStr name, PyStr line1, PyStr line2), w))
  ∧ (∀ (t0 : Q) (text name line1 line2 : str) (w0 : world),
       reachable w0 →
       cache_is_fresh t0 (cache w0) = Ok false →
       parse_response text = Ok (name, line1, line2) →
       let w1 := (fetch_tle t0 (NetText text) w0).2 in
       (fetch_tle t0 (NetText text) w0).1
       = Ok (PyStr name, PyStr line1, PyStr line2)
       ∧ requests w1 = S (requests w0)
       ∧ ∀ (now : Q) (net : response),
           float_lt (float_sub now t0) 3600 = true →
           fetch_tle now net w1
           = (Ok (PyStr name, PyStr line1, PyStr line2), w1))
  ∧ (∀ now ts : Q,
       float_lt (float_sub now ts) 3600 = true
       ↔ (now - ts < 3600 - (1 # 4398046511104))%Q).
Proof.
  split; [|split].
  - intros. by apply (fetch_tle_hit now ts).
  - intros t0 text name line1 line2 w0 Hw Hstale Hp w1. subst w1.
    rewrite (fetch_tle_refresh t0 text name line1 line2 w0 Hw Hstale Hp).
    simpl. split; [done|]. split; [done|].
    intros now net Hlt. by apply (fetch_tle_hit now t0).
  - apply float_sub_fresh.
Qed.

Lemma fresh_cache_hit_witness :
  fetch_tle 3599 (NetRaise timeout_error) warm_world
  = (Ok (PyStr iss_name, PyStr iss_line1, PyStr iss_line2), warm_world)
  ∧ requests warm_world = 1.
Proof.
  destruct fresh_cache_hit_without_network as (Hhit & Hrefresh & _).
  destruct (Hrefresh 0%Q iss_text iss_name iss_line1 iss_line2 initial_world
              reachable_init ltac:(by vm_compute) ltac:(by vm_compute))
    as (_ & Hreq & Hnext).
  split.
  - apply Hnext. by vm_compute.
  - exact Hreq.
Defined.

(** C4, as stated, fails at the rounding boundary.  The entry is stored
    when the clock reads the double nearest to 0.1 and the next call comes
    when it reads the double nearest to 3600.1: the exact age is below
    3600 s, the difference of line 43 is the double 3600.0, and the call
    sends a request. *)
Lemma fresh_cache_boundary_sends_request :
  let stored := (3602879701896397 # 36028797018963968)%Q in
  let now := (7916703622312755 # 2199023255552)%Q in
  let w := (fetch_tle stored (NetText iss_text) initial_world).2 in
  reachable w
  ∧ cache w = entry stored iss_name iss_line1 iss_line2
  ∧ (now - stored < 3600)%Q
  ∧ float_sub now stored = Finite (7916483719987200 # 2199023255552)
  ∧ cache_is_fresh now (cache w) = Ok false
  ∧ requests (fetch_tle now (NetRaise timeout_error) w).2 = S (requests w).
Proof.
  split; [apply reachable_fetch, reachable_init|]. by vm_compute.
Qed.

(** C10: a successful retrieval drops the blank lines of the response,
    strips every remaining line, and validates, stores and returns the
    first three of those; so every triple [fetch_tle] returns, fresh or
    from the cache, is made of non-empty strings without leading or
    trailing whitespace. *)
Theorem fetched_lines_are_stripped_and_non_blank :
  (∀ (now : Q) (text name line1 line2 : str) (w : world),
     reachable w →
     cache_is_fresh now (cache w) = Ok false →
     parse_response text = Ok (name, line1, line2) →
     (∃ rest,
        strip <$> filter (λ l, blank l = false) (splitlines (strip text))
        = name :: line1 :: line2 :: rest)
     ∧ (fetch_tle now (NetText text) w).1
       = Ok (PyStr name, PyStr line1, PyStr line2)
     ∧ cache (fetch_tle now (NetText text) w).2 = entry now name line1 line2)
  ∧ (∀ (now : Q) (net : response) (w w' : world) (r : pyval * pyval * pyval),
       reachable w →
       fetch_tle now net w = (Ok r, w') →
       ∃ name line1 line2,
         r = (PyStr name, PyStr line1, PyStr line2)
         ∧ trimmed name = true ∧ trimmed line1 = true ∧ trimmed line2 = true).
Proof.
  split.
  - intros now text name line1 line2 w Hw Hstale Hp.
    rewrite (fetch_tle_refresh now text name line1 line2 w Hw Hstale Hp).
    split; [|done]. rewrite <- clean_lines_blank.
    by apply parse_response_trimmed in Hp as [? _].
  - intros now net w w' r Hw Hf.
    assert (∀ c, cache_inv c → cached_tle c = Ok r →
                 ∃ name line1 line2,
                   r = (PyStr name, PyStr line1, PyStr line2)
                   ∧ trimmed name = true ∧ trimmed line1 = true
                   ∧ trimmed line2 = true) as Hcached.
    { intros c [->|(ts & name & line1 & line2 & -> & ? & ? & ?)].
      - by vm_compute.
      - rewrite cached_tle_entry. intros [= <-]. eauto 10. }
    pose proof (reachable_inv w Hw) as Hinv.
    unfold fetch_tle in Hf.
    destruct (cache_is_fresh now (cache w)) as [[|]|]; [| |done].
    + injection Hf as Hr _. by apply (Hcached (cache w)).
    + destruct (match net with NetRaise e => Err e
                           | NetText text => parse_response text end)
        as [[[name line1] line2]|e] eqn:Hnet.
      * injection Hf as <- _. destruct net as [|text]; [done|].
        apply parse_response_trimmed in Hnet as (_ & ? & ? & ?). eauto 10.
      * destruct (truthy (cache w)); [|done].
        injection Hf as Hr _. by apply (Hcached (cache w)).
Qed.

Lemma fetched_lines_witness :
  trimmed iss_name = true ∧ trimmed iss_line1 = true
  ∧ trimmed iss_line2 = true.
Proof.
  destruct fetched_lines_are_stripped_and_non_blank as [_ Hany].
  destruct (Hany 0%Q (NetText iss_text) initial_world warm_world
              (PyStr iss_name, PyStr iss_line1, PyStr iss_line2)
              reachable_init ltac:(by vm_compute))
    as (name & line1 & line2 & Heq & H0 & H1 & H2).
  injection Heq as <- <- <-. done.
Defined.

End fetcher_claims.

(* ===================================================================== *)
(** * Properties of the frame transforms                                  *)
(* ===================================================================== *)

Import propagator.

Section frames.

Local Open Scope R_scope.

Lemma eci_to_ecef_vector (x y z theta : R) :
  eci_to_ecef [x; y; z] theta
  = Ok [x * cos theta + y * sin theta; - x * sin theta + y * cos theta; z].
Proof. done. Qed.

(** C7: [eci_to_ecef] leaves z unchanged and applies the matrix
    [[cos θ, sin θ; -sin θ, cos θ]] to x and y, and rotating the result by
    the negated angle gives back the original vector (real arithmetic). *)
Theorem rotation_round_trip (x y z theta : R) :
  eci_to_ecef [x; y; z] theta
  = Ok [x * cos theta + y * sin theta; - x * sin theta + y * cos theta; z]
  ∧ (r_ecef ← eci_to_ecef [x; y; z] theta; eci_to_ecef r_ecef (- theta))
    = Ok [x; y; z].
Proof.
  split; [done|]. cbn. rewrite cos_neg, sin_neg.
  pose proof (sin2_cos2 theta) as Hsc. unfold Rsqr in Hsc.
  do 2 f_equal; [|f_equal].
  - replace x with (x * (sin theta * sin theta + cos theta * cos theta)) at 3
      by (rewrite Hsc; ring).
    ring.
  - replace y with (y * (sin theta * sin theta + cos theta * cos theta)) at 3
      by (rewrite Hsc; ring).
    ring.
Qed.

Lemma float_mod_range (x y : R) : 0 < y → 0 <= float_mod x y < y.
Proof.
  intros Hy. unfold float_mod.
  destruct (base_Int_part (x / y)) as [Hlo Hhi].
  assert (x = y * (x / y)) as Hx by (field; lra).
  rewrite Hx at 1 3. split; nra.
Qed.

Lemma float_mod_small (x y : R) : 0 <= x < y → float_mod x y = x.
Proof.
  intros [H0 Hy]. unfold float_mod.
  replace (Int_part (x / y)) with 0%Z; [lra|].
  apply Int_part_spec.
  assert (x = y * (x / y)) as Hx by (field; lra).
  set (q := x / y) in *. split; nra.
Qed.

Section gmst.
Context `{Calendar} `{Sgp4}.

(** C6: [compute_gmst] is the linear model in the days elapsed since
    JD 2451545.0, reduced modulo 360 degrees and converted to radians; it
    lies in [[0, 2π)]; at zero elapsed days it is 280.46061837 degrees in
    radians. *)
Theorem gmst_linear_model (dt : Z) :
  let days_elapsed := (jday_of dt).1 + (jday_of dt).2 - 2451545.0 in
  compute_gmst dt
  = math_radians (float_mod (280.46061837 + 360.98564736629 * days_elapsed) 360)
  ∧ 0 <= compute_gmst dt < 2 * PI
  ∧ (days_elapsed = 0 → compute_gmst dt = math_radians 280.46061837).
Proof.
  intros days_elapsed.
  assert (compute_gmst dt
          = math_radians
              (float_mod (280.46061837 + 360.98564736629 * days_elapsed) 360))
    as Heq.
  { unfold compute_gmst, days_elapsed. destruct (jday_of dt) as [jd fr].
    simpl. by replace 360.0 with 360 by lra. }
  split; [done|]. split.
  - rewrite Heq. unfold math_radians.
    pose proof (float_mod_range
                  (280.46061837 + 360.98564736629 * days_elapsed) 360
                  ltac:(lra)) as [Hlo Hhi].
    pose proof PI_RGT_0. split; nra.
  - intros Hd. rewrite Heq, Hd. f_equal. rewrite float_mod_small; lra.
Qed.

End gmst.

Lemma gmst_linear_model_witness :
  @compute_gmst noon_calendar (fixed_solver 0) 0 = math_radians 280.46061837.
Proof.
  apply (@gmst_linear_model noon_calendar (fixed_solver 0) 0%Z).
  unfold jday_of, jday, fields, fixed_solver, noon_calendar, sgp4_jday.
  cbv [year month day hour minute second microsecond fst snd].
  replace (367 * 2000 - 7 * (2000 + (1 + 9) / 12) / 4 + 275 * 1 / 9 + 1)%Z
    with 730531%Z by reflexivity.
  lra.
Defined.

End frames.

(* ===================================================================== *)
(** * Properties of the geodetic conversion                               *)
(* ===================================================================== *)

Section geodetic.

Local Open Scope R_scope.

Lemma traced_bind_ok {A B} (m : traced A) (f : A → traced B)
    (a : A) (d1 : list R) (r : result B) (d2 : list R) :
  m = (Ok a, d1) → f a = (r, d2) → (m ≫= f) = (r, d1 ++ d2).
Proof. intros -> Hf. unfold mbind, traced_bind. simpl. by rewrite Hf. Qed.

Lemma math_sqrt_ok (x : R) : 0 <= x → math_sqrt x = Ok (sqrt x).
Proof. intros Hx. unfold math_sqrt. destruct (Rlt_dec x 0); [lra|done]. Qed.

Lemma float_div_ok (x y : R) : y ≠ 0 → float_div x y = (Ok (x / y), [y]).
Proof. intros Hy. unfold float_div. by destruct (Req_dec_T y 0). Qed.

Lemma wgs84_e2_bounds : 0 < wgs84_e2 < 1 / 100.
Proof. unfold wgs84_e2, wgs84_f. lra. Qed.

Lemma radicand_bounds (lat : R) :
  99 / 100 <= 1.0 - wgs84_e2 * sin lat * sin lat <= 1.
Proof.
  pose proof wgs84_e2_bounds. pose proof (SIN_bound lat).
  assert (0 <= sin lat * sin lat <= 1) by nra. split; nra.
Qed.

Lemma sqrt_near_one (r : R) : 99 / 100 <= r <= 1 → 99 / 100 <= sqrt r <= 1.
Proof.
  intros [Hlo Hhi].
  pose proof (sqrt_pos r). pose proof (sqrt_sqrt r ltac:(lra)).
  split; nra.
Qed.

Lemma root_bounds (lat : R) :
  99 / 100 <= sqrt (1.0 - wgs84_e2 * sin lat * sin lat) <= 1.
Proof. apply sqrt_near_one, radicand_bounds. Qed.

Lemma atan2_range (y x : R) : 0 <= x → - (PI / 2) <= atan2 y x <= PI / 2.
Proof.
  intros Hx. unfold atan2. pose proof PI_RGT_0.
  destruct (Rlt_dec 0 x).
  - pose proof (atan_bound (y / x)). lra.
  - destruct (Rlt_dec x 0); [lra|].
    destruct (Rlt_dec 0 y); [lra|]. destruct (Rlt_dec y 0); lra.
Qed.

Lemma atan2_north (y : R) : 0 < y → atan2 y 0 = PI / 2.
Proof.
  intros Hy. unfold atan2.
  destruct (Rlt_dec 0 0); [lra|]. by destruct (Rlt_dec 0 y).
Qed.

(** One pass of the loop raises nothing and divides by the root only. *)
Lemma refine_ok (z p lat : R) :
  refine z p lat
  = (Ok (atan2 (z + wgs84_e2
                     * (wgs84_a / sqrt (1.0 - wgs84_e2 * sin lat * sin lat))
                     * sin lat) p),
     [sqrt (1.0 - wgs84_e2 * sin lat * sin lat)]).
Proof.
  pose proof (radicand_bounds lat). pose proof (root_bounds lat).
  unfold refine.
  etrans.
  { eapply traced_bind_ok.
    - unfold lift. rewrite math_sqrt_ok by lra. reflexivity.
    - eapply traced_bind_ok; [|reflexivity]. apply float_div_ok. lra. }
  reflexivity.
Qed.

Lemma refine_times_total (n : nat) (z p lat : R) :
  0 <= p → - (PI / 2) <= lat <= PI / 2 →
  ∃ lat' divs,
    refine_times n z p lat = (Ok lat', divs)
    ∧ - (PI / 2) <= lat' <= PI / 2
    ∧ Forall (λ d, 99 / 100 <= Rabs d) divs.
Proof.
  intros Hp. revert lat. induction n as [|n IH]; intros lat Hlat.
  - exists lat, []. split; [done|]. split; [done|]. constructor.
  - pose proof (root_bounds lat) as Hroot.
    destruct (IH _ (atan2_range
                      (z + wgs84_e2
                           * (wgs84_a / sqrt (1.0 - wgs84_e2 * sin lat * sin lat))
                           * sin lat) p Hp))
      as (lat' & divs & Hrec & Hrange & Hdivs).
    eexists lat', _. split; [|split; [done|]].
    + cbn [refine_times]. eapply traced_bind_ok; [apply refine_ok|apply Hrec].
    + simpl. constructor; [|done]. rewrite Rabs_pos_eq; lra.
Qed.

Lemma polar_sin (lat : R) :
  Rabs (cos lat) <= 1e-10 → 99 / 100 <= Rabs (sin lat).
Proof.
  intros Hc. pose proof (sin2_cos2 lat) as Hsc. unfold Rsqr in Hsc.
  unfold Rabs in *.
  destruct (Rcase_abs (cos lat)), (Rcase_abs (sin lat)); nra.
Qed.

(** [geodetic_rad] raises nothing; which altitude formula it uses and
    what it divides by is decided by the cosine of the final latitude. *)
Lemma geodetic_rad_spec (x y z : R) :
  ∃ lat alt divs,
    geodetic_rad [x; y; z] = (Ok (lat, atan2 y x, alt), divs)
    ∧ - (PI / 2) <= lat <= PI / 2
    ∧ (Rabs (cos lat) <= 1e-10 →
       alt = Rabs z / Rabs (sin lat) - wgs84_b * wgs84_b / wgs84_a
       ∧ Forall (λ d, 99 / 100 <= Rabs d) divs
       ∧ last divs = Some (Rabs (sin lat)))
    ∧ (1e-10 < Rabs (cos lat) →
       alt = sqrt (x * x + y * y) / cos lat
             - wgs84_a / sqrt (1.0 - wgs84_e2 * sin lat * sin lat)
       ∧ Forall (λ d, 1e-10 < Rabs d) divs
       ∧ last divs = Some (cos lat)).
Proof.
  set (p := sqrt (x * x + y * y)).
  assert (0 <= p) as Hp by apply sqrt_pos.
  assert (0 <= x * x + y * y) as Hxy by nra.
  pose proof wgs84_e2_bounds as He2.
  assert (0 <= p * (1.0 - wgs84_e2)) as Hp' by nra.
  destruct (refine_times_total 5 z p (atan2 z (p * (1.0 - wgs84_e2))) Hp
              (atan2_range _ _ Hp'))
    as (lat & divs & Hloop & Hrange & Hdivs).
  pose proof (radicand_bounds lat) as Hrad.
  pose proof (root_bounds lat) as Hroot.
  set (root := sqrt (1.0 - wgs84_e2 * sin lat * sin lat)) in *.
  destruct (Rlt_dec 1e-10 (Rabs (cos lat))) as [Hcos|Hcos].
  - exists lat, (p / cos lat - wgs84_a / root), (divs ++ [root; cos lat]).
    split; [|split; [done|split; [intros; lra|intros _]]].
    + unfold geodetic_rad. etrans.
      { eapply traced_bind_ok.
        { unfold lift. rewrite math_sqrt_ok by done. reflexivity. }
        eapply traced_bind_ok; [apply Hloop|].
        eapply traced_bind_ok.
        { unfold lift. rewrite math_sqrt_ok by lra. reflexivity. }
        eapply traced_bind_ok; [apply float_div_ok; fold root; lra|].
        eapply traced_bind_ok; [|reflexivity].
        destruct (Rlt_dec 1e-10 (Rabs (cos lat))); [|done].
        eapply traced_bind_ok; [|reflexivity].
        apply float_div_ok. intros Hz. rewrite Hz, Rabs_R0 in Hcos. lra. }
      by rewrite !app_nil_r.
    + split; [done|]. split.
      * apply Forall_app. split.
        -- eapply Forall_impl; [apply Hdivs|]. intros d Hd. simpl in Hd. lra.
        -- constructor; [rewrite Rabs_pos_eq; lra|].
           constructor; [done|constructor].
      * by rewrite last_app.
  - assert (Rabs (cos lat) <= 1e-10) as Hpole by lra.
    pose proof (polar_sin lat Hpole) as Hsin.
    exists lat, (Rabs z / Rabs (sin lat) - wgs84_b * wgs84_b / wgs84_a),
      (divs ++ [root; Rabs (sin lat)]).
    split; [|split; [done|split; [intros _|intros; lra]]].
    + unfold geodetic_rad. etrans.
      { eapply traced_bind_ok.
        { unfold lift. rewrite math_sqrt_ok by done. reflexivity. }
        eapply traced_bind_ok; [apply Hloop|].
        eapply traced_bind_ok.
        { unfold lift. rewrite math_sqrt_ok by lra. reflexivity. }
        eapply traced_bind_ok; [apply float_div_ok; fold root; lra|].
        eapply traced_bind_ok; [|reflexivity].
        destruct (Rlt_dec 1e-10 (Rabs (cos lat))); [done|].
        eapply traced_bind_ok; [|reflexivity].
        apply float_div_ok. lra. }
      by rewrite !app_nil_r.
    + split; [done|]. split.
      * apply Forall_app. split; [done|].
        constructor; [rewrite Rabs_pos_eq; lra|].
        constructor; [|constructor]. rewrite Rabs_Rabsolu. lra.
      * by rewrite last_app.
Qed.

Lemma ecef_to_geodetic_of_rad (r_ecef : list R) (lat lon alt : R)
    (divs : list R) :
  geodetic_rad r_ecef = (Ok (lat, lon, alt), divs) →
  ecef_to_geodetic r_ecef
  = (Ok (math_degrees lat, math_degrees lon, alt), divs).
Proof.
  intros Hrad. unfold ecef_to_geodetic.
  erewrite traced_bind_ok; [|apply Hrad|reflexivity]. by rewrite app_nil_r.
Qed.

(** [ecef_to_geodetic] returns on every 3-vector. *)
Lemma ecef_to_geodetic_total (x y z : R) :
  ∃ lat lon alt, (ecef_to_geodetic [x; y; z]).1 = Ok (lat, lon, alt).
Proof.
  destruct (geodetic_rad_spec x y z) as (lat & alt & divs & Hrad & _).
  rewrite (ecef_to_geodetic_of_rad _ _ _ _ _ Hrad). eauto.
Qed.

(** ** How close to the pole the fallback is taken *)

Lemma sin_lb_expand (u : R) :
  sin_lb u = u - u ^ 3 / 6 + u ^ 5 / 120 - u ^ 7 / 5040.
Proof.
  unfold sin_lb, sin_approx, sin_term. cbn [sum_f_R0].
  replace (INR (fact (2 * 0 + 1))) with 1
    by (rewrite INR_IZR_INZ; apply IZR_eq; reflexivity).
  replace (INR (fact (2 * 1 + 1))) with 6
    by (rewrite INR_IZR_INZ; apply IZR_eq; reflexivity).
  replace (INR (fact (2 * 2 + 1))) with 120
    by (rewrite INR_IZR_INZ; apply IZR_eq; reflexivity).
  replace (INR (fact (2 * 3 + 1))) with 5040
    by (rewrite INR_IZR_INZ; apply IZR_eq; reflexivity).
  cbn [Nat.mul Nat.add]. field.
Qed.

Lemma sin_lower (u : R) : 0 <= u <= 1 → 5 / 6 * u <= sin u.
Proof.
  intros [H0 H1].
  assert (u <= PI) as Hpi by (pose proof PI2_3_2; lra).
  destruct (SIN u H0 Hpi) as [Hlb _].
  rewrite sin_lb_expand in Hlb.
  assert (0 <= u ^ 2 <= 1) by nra.
  assert (0 <= u ^ 3 <= u) by nra.
  assert (0 <= u ^ 5) by (replace (u ^ 5) with (u ^ 3 * u ^ 2) by ring; nra).
  assert (u ^ 7 <= u ^ 5) by (replace (u ^ 7) with (u ^ 5 * u ^ 2) by ring; nra).
  lra.
Qed.

Lemma small_sin_small_angle (u : R) :
  0 <= u <= PI / 2 → sin u <= 1e-10 → u <= 2e-10.
Proof.
  intros [H0 H1] Hs.
  destruct (Rle_lt_dec u 1) as [Hu|Hu].
  - pose proof (sin_lower u (conj H0 Hu)). lra.
  - exfalso. pose proof PI2_3_2 as Hpi.
    assert (sin 1 < sin u) by (apply sin_increasing_1; lra).
    pose proof (sin_lower 1 ltac:(lra)). lra.
Qed.

Lemma near_pole_latitude (lat : R) :
  - (PI / 2) <= lat <= PI / 2 → Rabs (cos lat) <= 1e-10 →
  PI / 2 - 2e-10 <= Rabs lat <= PI / 2.
Proof.
  intros [Hlo Hhi] Hc.
  assert (0 <= cos lat) as Hpos by (by apply cos_ge_0).
  rewrite (Rabs_pos_eq _ Hpos) in Hc.
  assert (cos (Rabs lat) = cos lat) as Heven.
  { unfold Rabs. destruct (Rcase_abs lat); [apply cos_neg|done]. }
  assert (0 <= Rabs lat <= PI / 2) as [Ha0 Ha1].
  { unfold Rabs. destruct (Rcase_abs lat); lra. }
  split; [|done].
  assert (PI / 2 - Rabs lat <= 2e-10); [|lra].
  apply small_sin_small_angle; [lra|]. by rewrite sin_shift, Heven.
Qed.

Lemma near_pole_degrees (lat : R) :
  PI / 2 - 2e-10 <= Rabs lat <= PI / 2 →
  90 - 2e-8 <= Rabs (math_degrees lat) <= 90.
Proof.
  intros [Hlo Hhi]. unfold math_degrees.
  pose proof PI2_3_2 as Hpi.
  assert (0 < 180 / PI <= 60 ∧ 180 / PI * PI = 180) as [[Hk0 Hk1] Hk].
  { assert (180 / PI * PI = 180) as Hk by (field; lra).
    assert (0 < 180 / PI) by (apply Rdiv_lt_0_compat; lra).
    repeat split; [done| |done]. nra. }
  rewrite Rabs_mult, (Rabs_pos_eq (180 / PI)) by lra.
  set (k := 180 / PI) in *. set (a := Rabs lat) in *. split; nra.
Qed.

(** ** The input on the polar axis *)

Lemma refine_on_axis (z : R) :
  0 < z →
  refine z 0 (PI / 2) = (Ok (PI / 2), [sqrt (1.0 - wgs84_e2 * 1 * 1)]).
Proof.
  intros Hz. rewrite refine_ok. rewrite sin_PI2.
  pose proof (root_bounds (PI / 2)) as Hroot. rewrite sin_PI2 in Hroot.
  pose proof wgs84_e2_bounds.
  rewrite atan2_north; [done|].
  set (root := sqrt (1.0 - wgs84_e2 * 1 * 1)) in *.
  assert (0 < wgs84_a / root).
  { apply Rdiv_lt_0_compat; [unfold wgs84_a|]; lra. }
  nra.
Qed.

Lemma refine_times_on_axis (n : nat) (z : R) :
  0 < z →
  refine_times n z 0 (PI / 2)
  = (Ok (PI / 2), replicate n (sqrt (1.0 - wgs84_e2 * 1 * 1))).
Proof.
  intros Hz. induction n as [|n IH]; [done|].
  cbn [refine_times].
  erewrite traced_bind_ok; [|by apply refine_on_axis|apply IH]. done.
Qed.

Lemma geodetic_rad_polar_axis :
  geodetic_rad [0; 0; 6357]
  = (Ok (PI / 2, 0, 6357 - wgs84_b * wgs84_b / wgs84_a),
     replicate 6 (sqrt (1.0 - wgs84_e2 * 1 * 1)) ++ [1]).
Proof.
  pose proof (root_bounds (PI / 2)) as Hroot. rewrite sin_PI2 in Hroot.
  pose proof wgs84_e2_bounds as He2.
  assert (atan2 0 0 = 0) as Hlon.
  { unfold atan2. destruct (Rlt_dec 0 0); [lra|done]. }
  unfold geodetic_rad. rewrite Hlon.
  replace (0 * 0 + 0 * 0) with 0 by ring.
  etrans.
  { eapply traced_bind_ok.
    { unfold lift. rewrite math_sqrt_ok by lra. rewrite sqrt_0. reflexivity. }
    replace (0 * (1.0 - wgs84_e2)) with 0 by ring.
    rewrite atan2_north by lra.
    eapply traced_bind_ok; [apply refine_times_on_axis; lra|].
    rewrite sin_PI2, cos_PI2, Rabs_R0.
    eapply traced_bind_ok.
    { unfold lift. rewrite math_sqrt_ok by lra. reflexivity. }
    eapply traced_bind_ok; [apply float_div_ok; lra|].
    eapply traced_bind_ok; [|reflexivity].
    destruct (Rlt_dec 1e-10 0); [lra|].
    eapply traced_bind_ok; [|reflexivity].
    apply float_div_ok. rewrite Rabs_pos_eq; lra. }
  rewrite (Rabs_pos_eq 1), (Rabs_pos_eq 6357) by lra.
  replace (6357 / 1) with 6357 by field. done.
Qed.

(** C8: [ecef_to_geodetic] raises on no 3-vector.  When the final latitude
    has [|cos| <= 1e-10] the altitude is [|z| / |sin lat| - b*b/a]; every
    computed divisor used on the way, the last one being [|sin lat|], is
    at least 0.99 in magnitude, so [cos lat] is not among them; and the
    latitude is within 2e-8 degrees of +90 or -90.  The input (0, 0, 6357)
    is such a case and gives latitude 90. *)
Theorem near_pole_branch_divides_by_sin_only :
  (∀ x y z : R,
     ∃ lat lon alt divs,
       geodetic_rad [x; y; z] = (Ok (lat, lon, alt), divs)
       ∧ ecef_to_geodetic [x; y; z]
         = (Ok (math_degrees lat, math_degrees lon, alt), divs)
       ∧ (Rabs (cos lat) <= 1e-10 →
          alt = Rabs z / Rabs (sin lat) - wgs84_b * wgs84_b / wgs84_a
          ∧ 99 / 100 <= Rabs (sin lat)
          ∧ last divs = Some (Rabs (sin lat))
          ∧ Forall (λ d, 99 / 100 <= Rabs d) divs
          ∧ (cos lat ∉ divs)
          ∧ 90 - 2e-8 <= Rabs (math_degrees lat) <= 90))
  ∧ geodetic_rad [0; 0; 6357]
    = (Ok (PI / 2, 0, 6357 - wgs84_b * wgs84_b / wgs84_a),
       replicate 6 (sqrt (1.0 - wgs84_e2 * 1 * 1)) ++ [1])
  ∧ Rabs (cos (PI / 2)) <= 1e-10
  ∧ (ecef_to_geodetic [0; 0; 6357]).1
    = Ok (90, 0, 6357 - wgs84_b * wgs84_b / wgs84_a).
Proof.
  split; [|split; [apply geodetic_rad_polar_axis|split]].
  - intros x y z.
    destruct (geodetic_rad_spec x y z)
      as (lat & alt & divs & Hrad & Hrange & Hpolar & _).
    exists lat, (atan2 y x), alt, divs. split; [done|].
    split; [by apply ecef_to_geodetic_of_rad|].
    intros Hcos. destruct (Hpolar Hcos) as (Halt & Hdivs & Hlast).
    split; [done|]. split; [by apply polar_sin|]. split; [done|].
    split; [done|]. split.
    + intros Hin. rewrite Forall_forall in Hdivs.
      specialize (Hdivs _ Hin). simpl in Hdivs. lra.
    + by apply near_pole_degrees, near_pole_latitude.
  - rewrite cos_PI2, Rabs_R0. lra.
  - rewrite (ecef_to_geodetic_of_rad _ _ _ _ _ geodetic_rad_polar_axis).
    simpl. unfold math_degrees. pose proof PI_RGT_0.
    replace (PI / 2 * (180 / PI)) with 90 by (field; lra).
    by replace (0 * (180 / PI)) with 0 by (field; lra).
Qed.

Lemma near_pole_branch_witness :
  90 - 2e-8 <= Rabs (math_degrees (PI / 2)) <= 90.
Proof.
  destruct near_pole_branch_divides_by_sin_only
    as (Hall & Haxis & Hcos & _).
  destruct (Hall 0 0 6357) as (lat & lon & alt & divs & Hrad & _ & Hpolar).
  rewrite Haxis in Hrad. injection Hrad as <- _ _ _.
  by apply Hpolar.
Defined.

End geodetic.

(* ===================================================================== *)
(** * Properties of the state composer and the trail sampler              *)
(* ===================================================================== *)

Section composer.
Context `{Calendar} `{Sgp4}.

Local Open Scope R_scope.

Lemma propagate_eq (tle_line1 tle_line2 : str) (dt : Z) (sat : satrec)
    (code : Z) (r v : R * R * R) :
  twoline2rv tle_line1 tle_line2 = Ok sat →
  sgp4 sat (jday_of dt).1 (jday_of dt).2 = (code, r, v) →
  propagate tle_line1 tle_line2 dt
  = if negb (code =? 0)%Z then
      Err (ValueError (of_string "SGP4 propagation error code " ++ str_int code
                       ++ of_string " at " ++ str_datetime dt))
    else Ok (list_of_tuple r, list_of_tuple v).
Proof.
  intros Hsat Hsolver. unfold propagate. rewrite Hsat. simpl.
  destruct (jday_of dt) as [jd fr]. simpl in Hsolver. by rewrite Hsolver.
Qed.

(** What [propagate] returns is a pair of 3-element lists. *)
Lemma propagate_ok_shape (tle_line1 tle_line2 : str) (dt : Z)
    (r_eci v_eci : list R) :
  propagate tle_line1 tle_line2 dt = Ok (r_eci, v_eci) →
  ∃ r v, r_eci = list_of_tuple r ∧ v_eci = list_of_tuple v.
Proof.
  unfold propagate. destruct (twoline2rv tle_line1 tle_line2); [|done].
  simpl. destruct (jday_of dt) as [jd fr].
  destruct (sgp4 _ jd fr) as [[code r] v].
  destruct (negb (code =? 0)%Z); [done|]. intros [= <- <-]. eauto.
Qed.

Lemma compute_speed_ok (v : R * R * R) :
  compute_speed (list_of_tuple v)
  = Ok (sqrt (v.1.1 ^ 2 + v.1.2 ^ 2 + v.2 ^ 2)).
Proof.
  unfold compute_speed, list_of_tuple. simpl.
  apply math_sqrt_ok. nra.
Qed.

Lemma result_bind_ok {A B} (m : result A) (f : A → result B) (a : A) :
  m = Ok a → (m ≫= f) = f a.
Proof. by intros ->. Qed.

Lemma get_full_state_eq (utcnow : Z) (tle_line1 tle_line2 : str)
    (dt : option Z) (r_eci v_eci r_ecef : list R) (lat lon alt speed : R) :
  let t := default utcnow dt in
  propagate tle_line1 tle_line2 t = Ok (r_eci, v_eci) →
  eci_to_ecef r_eci (compute_gmst t) = Ok r_ecef →
  (ecef_to_geodetic r_ecef).1 = Ok (lat, lon, alt) →
  compute_speed v_eci = Ok speed →
  get_full_state utcnow tle_line1 tle_line2 dt
  = Ok {| st_timestamp := isoformat t ++ of_string "Z";
          st_lat := py_round lat 4;
          st_lon := py_round lon 4;
          st_alt_km := py_round alt 2;
          st_speed_km_s := py_round speed 4;
          st_r_eci := (λ c, py_round c 2) <$> r_eci;
          st_v_eci := (λ c, py_round c 6) <$> v_eci;
          st_r_ecef := (λ c, py_round c 2) <$> r_ecef;
          st_gmst_rad := py_round (compute_gmst t) 6;
          st_gmst_deg := py_round (math_degrees (compute_gmst t)) 4 |}.
Proof.
  intros t Hprop Hrot Hgeo Hspeed. unfold get_full_state. fold t.
  rewrite (result_bind_ok _ _ _ Hprop). cbv beta iota.
  rewrite (result_bind_ok _ _ _ Hrot).
  rewrite (result_bind_ok _ _ _ Hgeo). cbv beta iota.
  by rewrite (result_bind_ok _ _ _ Hspeed).
Qed.

(** C5: a non-zero status of the solver makes [propagate], and with it
    [get_full_state], raise a [ValueError] whose message holds the status
    code and the instant; the raised value does not mention the position
    and velocity the solver returned.  With status 0 nothing is raised and
    the returned position and velocity are the ones every field of the
    state is computed from. *)
Theorem solver_status_decides_propagation
    (utcnow : Z) (tle_line1 tle_line2 : str) (dt : option Z)
    (sat : satrec) (code : Z) (r v : R * R * R)
    (Hsat : twoline2rv tle_line1 tle_line2 = Ok sat)
    (Hsolver : sgp4 sat (jday_of (default utcnow dt)).1
                        (jday_of (default utcnow dt)).2 = (code, r, v)) :
  let t := default utcnow dt in
  let failure :=
    ValueError (of_string "SGP4 propagation error code " ++ str_int code
                ++ of_string " at " ++ str_datetime t) in
  (code ≠ 0%Z →
   propagate tle_line1 tle_line2 t = Err failure
   ∧ get_full_state utcnow tle_line1 tle_line2 dt = Err failure)
  ∧ (code = 0%Z →
     propagate tle_line1 tle_line2 t = Ok (list_of_tuple r, list_of_tuple v)
     ∧ ∃ r_ecef lat lon alt speed,
         eci_to_ecef (list_of_tuple r) (compute_gmst t) = Ok r_ecef
         ∧ (ecef_to_geodetic r_ecef).1 = Ok (lat, lon, alt)
         ∧ compute_speed (list_of_tuple v) = Ok speed
         ∧ get_full_state utcnow tle_line1 tle_line2 dt
           = Ok {| st_timestamp := isoformat t ++ of_string "Z";
                   st_lat := py_round lat 4;
                   st_lon := py_round lon 4;
                   st_alt_km := py_round alt 2;
                   st_speed_km_s := py_round speed 4;
                   st_r_eci := (λ c, py_round c 2) <$> list_of_tuple r;
                   st_v_eci := (λ c, py_round c 6) <$> list_of_tuple v;
                   st_r_ecef := (λ c, py_round c 2) <$> r_ecef;
                   st_gmst_rad := py_round (compute_gmst t) 6;
                   st_gmst_deg := py_round (math_degrees (compute_gmst t)) 4
                |}).
Proof.
  intros t failure.
  pose proof (propagate_eq tle_line1 tle_line2 t sat code r v Hsat Hsolver)
    as Hprop.
  split.
  - intros Hcode. apply Z.eqb_neq in Hcode. rewrite Hcode in Hprop.
    split; [done|]. unfold get_full_state. fold t. by rewrite Hprop.
  - intros ->. simpl in Hprop. split; [done|].
    destruct r as [[x y] z].
    pose proof (eci_to_ecef_vector x y z (compute_gmst t)) as Hrot.
    destruct (ecef_to_geodetic_total
                (x * cos (compute_gmst t) + y * sin (compute_gmst t))
                (- x * sin (compute_gmst t) + y * cos (compute_gmst t)) z)
      as (lat & lon & alt & Hgeo).
    eexists _, lat, lon, alt, _.
    split; [exact Hrot|]. split; [exact Hgeo|].
    split; [apply compute_speed_ok|].
    by apply get_full_state_eq; [| | |apply compute_speed_ok].
Qed.

End composer.

Lemma solver_status_witness :
  @get_full_state noon_calendar (fixed_solver 6) 0 iss_line1 iss_line2 None
  = Err (ValueError (of_string "SGP4 propagation error code 6 at 0"))
  ∧ is_ok (@get_full_state noon_calendar (fixed_solver 0) 0
             iss_line1 iss_line2 None) = true.
Proof.
  split.
  - destruct (@solver_status_decides_propagation
                noon_calendar (fixed_solver 6) 0%Z iss_line1 iss_line2 None
                () 6%Z (6778, 0, 0)%R (0, 7.66, 0)%R eq_refl eq_refl)
      as [Hraise _].
    destruct (Hraise ltac:(done)) as [_ Hstate]. exact Hstate.
  - destruct (@solver_status_decides_propagation
                noon_calendar (fixed_solver 0) 0%Z iss_line1 iss_line2 None
                () 0%Z (6778, 0, 0)%R (0, 7.66, 0)%R eq_refl eq_refl)
      as [_ Hgood].
    destruct (Hgood eq_refl)
      as (_ & r_ecef & lat & lon & alt & speed & _ & _ & _ & Hstate).
    by rewrite Hstate.
Defined.

Section sampler.
Context `{Calendar} `{Sgp4}.

Local Open Scope Z_scope.

Lemma instants_length (start step : Z) (n : nat) :
  length (instants start step n) = n.
Proof. revert start. induction n as [|n IH]; intros start; simpl; [done|by rewrite IH]. Qed.

Lemma instants_elem (start step : Z) (n : nat) (t : Z) :
  t ∈ instants start step n →
  ∃ k : nat, (k < n)%nat ∧ t = start + Z.of_nat k * step.
Proof.
  revert start. induction n as [|n IH]; intros start; simpl.
  - by intros ?%elem_of_nil.
  - intros [->|Hin]%elem_of_cons.
    + exists 0%nat. split; lia.
    + destruct (IH _ Hin) as (k & Hk & ->). exists (S k). split; lia.
Qed.

Lemma instants_last (start step : Z) (n : nat) :
  last (instants start step (S n)) = Some (start + Z.of_nat n * step).
Proof.
  revert start. induction n as [|n IH]; intros start.
  - simpl. f_equal. lia.
  - change (instants start step (S (S n)))
      with (start :: instants (start + step) step (S n)).
    rewrite last_cons, IH. f_equal. lia.
Qed.

(** A sample raises nothing as soon as the propagation succeeds. *)
Lemma trail_point_at_ok (tle_line1 tle_line2 : str) (t : Z) :
  is_ok (propagate tle_line1 tle_line2 t) = true →
  is_ok (trail_point_at tle_line1 tle_line2 t) = true.
Proof.
  destruct (propagate tle_line1 tle_line2 t) as [[r_eci v_eci]|] eqn:Hprop;
    [intros _|done].
  destruct (propagate_ok_shape _ _ _ _ _ Hprop) as ([[x y] z] & v & -> & _).
  pose proof (eci_to_ecef_vector x y z (compute_gmst t)) as Hrot.
  destruct (ecef_to_geodetic_total
              (x * cos (compute_gmst t) + y * sin (compute_gmst t))%R
              (- x * sin (compute_gmst t) + y * cos (compute_gmst t))%R z)
    as (lat & lon & alt & Hgeo).
  unfold trail_point_at.
  rewrite (result_bind_ok _ _ _ Hprop). cbv beta iota.
  rewrite (result_bind_ok _ _ _ Hrot).
  by rewrite (result_bind_ok _ _ _ Hgeo).
Qed.

Lemma kept_points_all (tle_line1 tle_line2 : str) (ts : list Z) :
  (∀ t, t ∈ ts → is_ok (propagate tle_line1 tle_line2 t) = true) →
  Forall2 (λ t point, trail_point_at tle_line1 tle_line2 t = Ok point)
          ts (kept_points tle_line1 tle_line2 ts).
Proof.
  induction ts as [|t ts IH]; intros Hall; [constructor|].
  pose proof (trail_point_at_ok tle_line1 tle_line2 t
                (Hall t ltac:(by left))) as Hok.
  unfold kept_points. simpl.
  destruct (trail_point_at tle_line1 tle_line2 t) as [point|] eqn:Hpt; [|done].
  simpl. constructor; [done|]. apply IH. intros t' Ht'. apply Hall. by right.
Qed.

(** The loop visits [t], [t + step], ... while they are at most [end_t],
    keeps the samples that raise nothing, and stops at the first instant
    after [end_t]. *)
Lemma walk_spec (tle_line1 tle_line2 : str) (step_seconds step end_t : Z)
    (n : nat) :
  timedelta_seconds step_seconds = Ok step → 0 < step →
  ∀ (fuel : nat) (t : Z) (points : list trail_point),
    (n < fuel)%nat →
    (∀ k : nat, (k < n)%nat → t + Z.of_nat k * step <= end_t) →
    end_t < t + Z.of_nat n * step →
    ((0 < n)%nat →
     DATETIME_MIN <= t ∧ t + Z.of_nat n * step <= DATETIME_MAX) →
    walk fuel tle_line1 tle_line2 step_seconds t end_t points
    = Some (Ok (points ++ kept_points tle_line1 tle_line2 (instants t step n))).
Proof.
  intros Hstep Hpos. induction n as [|n IH];
    intros fuel t points Hfuel Hin Hout Hrange;
    (destruct fuel as [|fuel]; [lia|]); cbn [walk].
  - assert ((t <=? end_t) = false) as -> by (apply Z.leb_gt; lia).
    by rewrite app_nil_r.
  - assert ((t <=? end_t) = true) as ->.
    { apply Z.leb_le. specialize (Hin 0%nat ltac:(lia)). lia. }
    destruct (Hrange ltac:(lia)) as [Hmin Hmax].
    rewrite (result_bind_ok _ _ _ Hstep).
    assert (datetime_add t step = Ok (t + step)) as ->.
    { unfold datetime_add, check_datetime.
      assert ((DATETIME_MIN <=? t + step) = true) as -> by (apply Z.leb_le; lia).
      assert ((t + step <=? DATETIME_MAX) = true) as ->; [|done].
      apply Z.leb_le. lia. }
    rewrite IH; [| lia | | lia | lia].
    + f_equal. f_equal. unfold kept_points. simpl.
      destruct (trail_point_at tle_line1 tle_line2 t); simpl; [|done].
      by rewrite <- app_assoc.
    + intros k Hk. specialize (Hin (S k) ltac:(lia)). lia.
Qed.

(** C2, for the centre instants the [datetime] type leaves room around:
    with 30 minutes back, 30 minutes ahead and a step of 30 seconds, when
    every sample propagates, the past arc has the 61 samples from 30
    minutes before the centre up to the centre itself and the future arc
    the 60 samples from 30 seconds to 30 minutes after it; the centre is
    the last past instant and no future instant. *)
Theorem trail_has_61_past_and_60_future
    (utcnow : Z) (tle_line1 tle_line2 : str) (center_dt : option Z)
    (fuel : nat) :
  let center := default utcnow center_dt in
  let past_instants := instants (center - 1800000000) 30000000 61 in
  let future_instants := instants (center + 30000000) 30000000 60 in
  (62 <= fuel)%nat →
  DATETIME_MIN <= center - 1800000000 →
  center + 1830000000 <= DATETIME_MAX →
  (∀ k : Z, -60 <= k <= 60 →
     is_ok (propagate tle_line1 tle_line2 (center + k * 30000000)) = true) →
  ∃ tr : trail,
    compute_orbit_trail fuel utcnow tle_line1 tle_line2 center_dt 30 30 30
    = Some (Ok tr)
    ∧ length (past tr) = 61%nat
    ∧ length (future tr) = 60%nat
    ∧ Forall2 (λ t point, trail_point_at tle_line1 tle_line2 t = Ok point)
              past_instants (past tr)
    ∧ Forall2 (λ t point, trail_point_at tle_line1 tle_line2 t = Ok point)
              future_instants (future tr)
    ∧ last past_instants = Some center
    ∧ center ∉ future_instants.
Proof.
  intros center past_instants future_instants Hfuel Hlo Hhi Hok.
  assert (Forall2 (λ t point, trail_point_at tle_line1 tle_line2 t = Ok point)
            past_instants (kept_points tle_line1 tle_line2 past_instants))
    as Hpast.
  { apply kept_points_all. intros t (k & Hk & ->)%instants_elem.
    replace (center - 1800000000 + Z.of_nat k * 30000000)
      with (center + (Z.of_nat k - 60) * 30000000) by lia.
    apply Hok. lia. }
  assert (Forall2 (λ t point, trail_point_at tle_line1 tle_line2 t = Ok point)
            future_instants (kept_points tle_line1 tle_line2 future_instants))
    as Hfuture.
  { apply kept_points_all. intros t (k & Hk & ->)%instants_elem.
    replace (center + 30000000 + Z.of_nat k * 30000000)
      with (center + (Z.of_nat k + 1) * 30000000) by lia.
    apply Hok. lia. }
  exists {| past := kept_points tle_line1 tle_line2 past_instants;
            future := kept_points tle_line1 tle_line2 future_instants |}.
  split; [|split; [|split; [|split; [exact Hpast|split; [exact Hfuture|split]]]]].
  - unfold compute_orbit_trail. fold center.
    assert (timedelta_minutes 30 = Ok 1800000000) as Hback by done.
    assert (timedelta_seconds 30 = Ok 30000000) as Hstep by done.
    rewrite (result_bind_ok _ _ _ Hback).
    assert (datetime_sub center 1800000000 = Ok (center - 1800000000)) as ->.
    { unfold datetime_sub, check_datetime.
      assert ((DATETIME_MIN <=? center - 1800000000) = true) as ->
        by (apply Z.leb_le; lia).
      assert ((center - 1800000000 <=? DATETIME_MAX) = true) as ->; [|done].
      apply Z.leb_le. lia. }
    rewrite (walk_spec tle_line1 tle_line2 30 30000000 center 61 Hstep)
      by (try intros ?; lia).
    rewrite (result_bind_ok _ _ _ Hstep).
    assert (datetime_add center 30000000 = Ok (center + 30000000)) as Hfirst.
    { unfold datetime_add, check_datetime.
      assert ((DATETIME_MIN <=? center + 30000000) = true) as ->
        by (apply Z.leb_le; lia).
      assert ((center + 30000000 <=? DATETIME_MAX) = true) as ->; [|done].
      apply Z.leb_le. lia. }
    rewrite (result_bind_ok _ _ _ Hfirst).
    rewrite (result_bind_ok _ _ _ Hback).
    assert (datetime_add center 1800000000 = Ok (center + 1800000000)) as Hend.
    { unfold datetime_add, check_datetime.
      assert ((DATETIME_MIN <=? center + 1800000000) = true) as ->
        by (apply Z.leb_le; lia).
      assert ((center + 1800000000 <=? DATETIME_MAX) = true) as ->; [|done].
      apply Z.leb_le. lia. }
    rewrite (result_bind_ok _ _ _ Hend). cbn [mret result_ret].
    rewrite (walk_spec tle_line1 tle_line2 30 30000000
               (center + 1800000000) 60 Hstep)
      by (try intros ?; lia).
    by rewrite !app_nil_l.
  - cbn [past]. rewrite <- (Forall2_length _ _ _ Hpast).
    apply instants_length.
  - cbn [future]. rewrite <- (Forall2_length _ _ _ Hfuture).
    apply instants_length.
  - unfold past_instants. rewrite instants_last. f_equal. lia.
  - intros (k & Hk & Heq)%instants_elem. lia.
Qed.

End sampler.

Lemma trail_witness :
  ∃ tr : trail,
    @compute_orbit_trail noon_calendar (fixed_solver 0) 62 0
      iss_line1 iss_line2 (Some 1800000000%Z) 30 30 30 = Some (Ok tr)
    ∧ length (past tr) = 61%nat ∧ length (future tr) = 60%nat.
Proof.
  destruct (@trail_has_61_past_and_60_future noon_calendar (fixed_solver 0)
              0%Z iss_line1 iss_line2 (Some 1800000000%Z) 62%nat
              ltac:(lia) ltac:(done) ltac:(done) ltac:(done))
    as (tr & Hrun & Hpast & Hfuture & _).
  eauto.
Defined.

(** C2, as stated, fails at the first representable instant: the start of
    the past arc, 30 minutes before [datetime.min], is not a [datetime],
    and the subtraction of line 290 raises [OverflowError] although every
    propagation succeeds. *)
Lemma trail_at_datetime_min_raises :
  (∀ t : Z, is_ok (@propagate noon_calendar (fixed_solver 0)
                     iss_line1 iss_line2 t) = true)
  ∧ (∀ fuel : nat,
       @compute_orbit_trail noon_calendar (fixed_solver 0) fuel 0
         iss_line1 iss_line2 (Some DATETIME_MIN) 30 30 30
       = Some (Err (OverflowError (of_string "date value out of range")))).
Proof. split; by intros. Qed.

(* ===================================================================== *)
(** * Properties of the epoch parser                                      *)
(* ===================================================================== *)

Section epoch.
Context `{Builtins}.

Local Open Scope Z_scope.

Lemma Qround_half_even_zero (q : Q) : (q == 0)%Q → Qround_half_even q = 0.
Proof.
  intros Hq. unfold Qround_half_even.
  assert (Qfloor q = 0) as -> by (by rewrite Hq).
  assert ((q - inject_Z 0 ?= 1 # 2)%Q = Lt) as ->; [|done].
  by rewrite Hq.
Qed.

Lemma timedelta_days_zero (d : Q) : (d == 0)%Q → timedelta_days d = Ok 0.
Proof.
  intros Hd. unfold timedelta_days.
  rewrite Qround_half_even_zero; [done|]. rewrite Hd. reflexivity.
Qed.

Lemma days_before_year_range (year : Z) :
  1 <= year <= 9999 → 0 <= days_before_year year <= 3651694.
Proof.
  intros Hy. unfold days_before_year.
  pose proof (Z.div_mod (year - 1) 4 ltac:(lia)).
  pose proof (Z.mod_pos_bound (year - 1) 4 ltac:(lia)).
  pose proof (Z.div_mod (year - 1) 100 ltac:(lia)).
  pose proof (Z.mod_pos_bound (year - 1) 100 ltac:(lia)).
  pose proof (Z.div_mod (year - 1) 400 ltac:(lia)).
  pose proof (Z.mod_pos_bound (year - 1) 400 ltac:(lia)).
  lia.
Qed.

Lemma datetime_jan1_ok (year : Z) :
  1 <= year <= 9999 →
  datetime_jan1 year = Ok (days_before_year year * US_PER_DAY).
Proof.
  intros [Hlo Hhi]. unfold datetime_jan1.
  apply Z.leb_le in Hlo, Hhi. by rewrite Hlo, Hhi.
Qed.

Lemma epoch_year_cases (year_2digit : Z) :
  epoch_year year_2digit
  = if 57 <=? year_2digit then 1900 + year_2digit else 2000 + year_2digit.
Proof.
  unfold epoch_year.
  destruct (Z.ltb_spec year_2digit 57), (Z.leb_spec 57 year_2digit); lia.
Qed.

(** C9: the two-digit year [YY] read from line 1 becomes 1900+YY when
    YY >= 57 and 2000+YY otherwise, which for 0 <= YY <= 99 is the window
    1957..2056; the epoch is January 1 of that year plus (day-of-year - 1)
    days, so that day 1.0 is January 1, 00:00:00. *)
Theorem epoch_year_window_and_one_based_day
    (line1 : str) (year_2digit : Z) (day_of_year : Q)
    (Hint : py_int (take 2 (epoch_str line1)) = Ok year_2digit)
    (Hfloat : py_float (drop 2 (epoch_str line1)) = Ok day_of_year) :
  let year :=
    if 57 <=? year_2digit then 1900 + year_2digit else 2000 + year_2digit in
  let fmt := of_string "%Y-%m-%d %H:%M:%S UTC" in
  parse_tle_epoch line1
  = (base ← datetime_jan1 year;
     delta ← timedelta_days (day_of_year - 1);
     epoch_dt ← datetime_add base delta;
     mret (strftime epoch_dt fmt))
  ∧ (0 <= year_2digit <= 99 → 1957 <= year <= 2056)
  ∧ (1 <= year <= 9999 → (day_of_year == 1)%Q →
     datetime_jan1 year = Ok (days_before_year year * US_PER_DAY)
     ∧ parse_tle_epoch line1
       = Ok (strftime (days_before_year year * US_PER_DAY) fmt)).
Proof.
  intros year fmt.
  assert (parse_tle_epoch line1
          = (base ← datetime_jan1 year;
             delta ← timedelta_days (day_of_year - 1);
             epoch_dt ← datetime_add base delta;
             mret (strftime epoch_dt fmt))) as Hparse.
  { unfold parse_tle_epoch.
    rewrite (result_bind_ok _ _ _ Hint), (result_bind_ok _ _ _ Hfloat).
    rewrite epoch_year_cases. fold year. unfold epoch_datetime.
    by destruct (datetime_jan1 year) as [base|];
      [destruct (timedelta_days (day_of_year - 1)) as [delta|]|]. }
  split; [done|]. split.
  - intros Hyy. unfold year. destruct (Z.leb_spec 57 year_2digit); lia.
  - intros Hyear Hday. split; [by apply datetime_jan1_ok|].
    rewrite Hparse, (datetime_jan1_ok year Hyear).
    rewrite timedelta_days_zero by (rewrite Hday; reflexivity).
    cbn [mbind result_bind].
    pose proof (days_before_year_range year Hyear) as Hrange.
    unfold datetime_add, check_datetime.
    assert ((DATETIME_MIN <=? days_before_year year * US_PER_DAY + 0) = true)
      as -> by (apply Z.leb_le; unfold DATETIME_MIN, US_PER_DAY, US_PER_SECOND; lia).
    assert ((days_before_year year * US_PER_DAY + 0 <=? DATETIME_MAX) = true)
      as ->.
    { apply Z.leb_le. unfold DATETIME_MAX, US_PER_DAY, US_PER_SECOND. lia. }
    cbn [andb mret result_ret]. by rewrite Z.add_0_r.
Qed.

End epoch.

Lemma epoch_witness :
  @parse_tle_epoch ascii_builtins iss_line1
  = Ok (str_int (days_before_year 2024 * US_PER_DAY)).
Proof.
  destruct (@epoch_year_window_and_one_based_day ascii_builtins
              iss_line1 24%Z (100000000 # 100000000)%Q
              ltac:(by vm_compute) ltac:(by vm_compute))
    as (_ & _ & Hjan1).
  by destruct (Hjan1 ltac:(done) ltac:(done)) as [_ ->].
Defined.

(* ===================================================================== *)
(** * Further properties of the fetcher                                   *)
(* ===================================================================== *)

Section fetcher_more.

Lemma fetch_tle_outcome (now : Q) (net : response) (w : world) :
  reachable w → outcome now net w.
Proof.
  intros Hw.
  destruct (attempt net) as [[[name line1] line2]|e] eqn:Hnet.
  - destruct (reachable_inv w Hw) as [Hc|(ts & n & a & b & Hc & _)].
    + apply (outcome_refresh now net w name line1 line2); [|done|].
      * by rewrite Hc, cache_is_fresh_empty.
      * destruct net as [|text]; [done|].
        apply fetch_tle_refresh; [done| |done].
        by rewrite Hc, cache_is_fresh_empty.
    + destruct (float_lt (float_sub now ts) CACHE_TTL_SECONDS) eqn:Hfresh.
      * by apply (outcome_hit now net w ts n a b); [| |apply (fetch_tle_hit now ts)].
      * assert (cache_is_fresh now (cache w) = Ok false) as Hstale
          by (by rewrite Hc, cache_is_fresh_entry, Hfresh).
        apply (outcome_refresh now net w name line1 line2); [done|done|].
        destruct net as [|text]; [done|]. by apply fetch_tle_refresh.
  - destruct (reachable_inv w Hw) as [Hc|(ts & n & a & b & Hc & _)].
    + apply (outcome_raise now net w e); [done|done|].
      by apply fetch_tle_no_cache.
    + destruct (float_lt (float_sub now ts) CACHE_TTL_SECONDS) eqn:Hfresh.
      * by apply (outcome_hit now net w ts n a b); [| |apply (fetch_tle_hit now ts)].
      * assert (cache_is_fresh now (cache w) = Ok false) as Hstale
          by (by rewrite Hc, cache_is_fresh_entry, Hfresh).
        destruct (fetch_tle_fallback now net e w Hw) as
          (ts' & n' & a' & b' & Hc' & Hf); [|done|done|].
        { rewrite Hc. apply entry_not_empty. }
        apply (outcome_fallback now net w ts n a b e); [done|done|done|].
        rewrite Hf. do 2 f_equal.
        pose proof (cached_tle_entry ts n a b) as H1.
        pose proof (cached_tle_entry ts' n' a' b') as H2.
        rewrite <- Hc, Hc' in H1. congruence.
Qed.

(** X1: once the cache holds an entry it is never emptied, and no later
    call raises: whatever the time and whatever the provider does, the
    call returns an element set. *)
Theorem cache_entry_persists_and_no_call_raises
    (now : Q) (net : response) (w : world)
    (Hw : reachable w) (Hwarm : cache w ≠ ∅) :
  is_ok (fetch_tle now net w).1 = true
  ∧ cache (fetch_tle now net w).2 ≠ ∅.
Proof.
  destruct (fetch_tle_outcome now net w Hw)
    as [ts n a b Hc _ ->|n a b _ _ ->|ts n a b e Hc _ _ ->|e Hc _ _];
    [split; [done|]..|done]; simpl.
  - done.
  - apply entry_not_empty.
  - done.
Qed.

Lemma cache_entry_persists_witness :
  is_ok (fetch_tle 7200 (NetRaise timeout_error) warm_world).1 = true
  ∧ cache (fetch_tle 7200 (NetRaise timeout_error) warm_world).2 ≠ ∅.
Proof.
  apply (cache_entry_persists_and_no_call_raises
           7200 (NetRaise timeout_error) warm_world warm_world_reachable).
  rewrite warm_world_cache. apply entry_not_empty.
Defined.

(** X2: one call sends at most one HTTP request, and it sends none
    exactly when the cache holds an entry whose age, subtracted as line
    43 does in double arithmetic, is below the time to live: that is,
    whose exact age is below 3600 s by more than 2^-42 s. *)
Theorem one_request_unless_fresh (now : Q) (net : response) (w : world)
    (Hw : reachable w) :
  ∃ fresh : bool,
    cache_is_fresh now (cache w) = Ok fresh
    ∧ requests (fetch_tle now net w).2
      = (if fresh then requests w else S (requests w))
    ∧ (fresh = true ↔
       ∃ ts name line1 line2,
         cache w = entry ts name line1 line2
         ∧ (now - ts < 3600 - (1 # 4398046511104))%Q).
Proof.
  destruct (fetch_tle_outcome now net w Hw)
    as [ts n a b Hc Hlt ->|n a b Hstale _ ->|ts n a b e Hc Hold _ ->
        |e Hc _ ->].
  - exists true. rewrite Hc, cache_is_fresh_entry, Hlt.
    split; [done|]. split; [done|].
    apply float_sub_fresh in Hlt. split; [eauto 10|done].
  - exists false. split; [done|]. split; [done|]. split; [done|].
    intros (ts & n' & a' & b' & Hc & Hlt%float_sub_fresh).
    rewrite Hc, cache_is_fresh_entry, Hlt in Hstale. done.
  - exists false. rewrite Hc, cache_is_fresh_entry, Hold.
    split; [done|]. split; [done|]. split; [done|].
    intros (ts' & n' & a' & b' & Hc' & Hlt%float_sub_fresh).
    pose proof (entry_timestamp ts n a b) as Hts.
    rewrite Hc', entry_timestamp in Hts. injection Hts as ->. congruence.
  - exists false. rewrite Hc, cache_is_fresh_empty.
    split; [done|]. split; [done|]. split; [done|].
    intros (ts & n & a & b & Hc' & _). by destruct (entry_not_empty ts n a b).
Qed.

Lemma one_request_unless_fresh_witness :
  requests (fetch_tle 100 (NetRaise timeout_error) warm_world).2 = 1%nat
  ∧ requests (fetch_tle 3600 (NetRaise timeout_error) warm_world).2 = 2%nat.
Proof.
  split.
  - destruct (one_request_unless_fresh 100 (NetRaise timeout_error)
                warm_world warm_world_reachable)
      as (fresh & Hfresh & Hreq & _).
    rewrite Hreq. vm_compute in Hfresh. by injection Hfresh as <-.
  - destruct (one_request_unless_fresh 3600 (NetRaise timeout_error)
                warm_world warm_world_reachable)
      as (fresh & Hfresh & Hreq & _).
    rewrite Hreq. vm_compute in Hfresh. by injection Hfresh as <-.
Defined.

(** X3: the only exception [fetch_tle] raises is the [RuntimeError] of
    line 75, and only while the cache is empty; its message carries the
    text of the exception that made the attempt fail, and the cache is
    still empty afterwards. *)
Theorem only_runtime_error_with_empty_cache
    (now : Q) (net : response) (w : world) (e : exn)
    (Hw : reachable w) (Hraise : (fetch_tle now net w).1 = Err e) :
  cache w = ∅
  ∧ cache (fetch_tle now net w).2 = ∅
  ∧ ∃ cause,
      attempt net = Err cause
      ∧ e = RuntimeError
              (of_string "Could not fetch TLE and no cache available: "
               ++ exn_str cause).
Proof.
  destruct (fetch_tle_outcome now net w Hw)
    as [ts n a b _ _ Hf|n a b _ _ Hf|ts n a b e' _ _ _ Hf|e' Hc Hnet Hf];
    rewrite Hf in Hraise; try done.
  rewrite Hf. simpl in *. injection Hraise as <-. eauto.
Qed.

Lemma only_runtime_error_witness :
  cache initial_world = ∅
  ∧ cache (fetch_tle 0 (NetText bad_text) initial_world).2 = ∅
  ∧ ∃ cause,
      attempt (NetText bad_text) = Err cause
      ∧ RuntimeError
          (of_string "Could not fetch TLE and no cache available: "
           ++ of_string "Unexpected TLE response: " ++ bad_text)
        = RuntimeError
            (of_string "Could not fetch TLE and no cache available: "
             ++ exn_str cause).
Proof.
  apply (only_runtime_error_with_empty_cache
           0 (NetText bad_text) initial_world _ reachable_init).
  by vm_compute.
Defined.



(** X5: a fallback does not touch the time stamp of the entry, so while
    the provider stays down every later call asks it again: there is no
    back-off. *)
Theorem stale_fallback_retries_on_every_call
    (now now' ts : Q) (name line1 line2 : str) (net net' : response)
    (e : exn) (w : world)
    (Hw : reachable w)
    (Hc : cache w = entry ts name line1 line2)
    (Hold : ¬ (now - ts < CACHE_TTL_SECONDS)%Q)
    (Hnet : attempt net = Err e)
    (Hlater : (now <= now')%Q) :
  let w1 := (fetch_tle now net w).2 in
  cache w1 = entry ts name line1 line2
  ∧ cache_is_fresh now' (cache w1) = Ok false
  ∧ requests (fetch_tle now' net' w1).2 = S (S (requests w)).
Proof.
  intros w1.
  assert (cache_is_fresh now (cache w) = Ok false) as Hstale.
  { rewrite Hc, cache_is_fresh_entry, float_sub_stale; [done|].
    unfold CACHE_TTL_SECONDS in Hold. apply Qnot_lt_le in Hold. done. }
  destruct (fetch_tle_fallback now net e w Hw) as
    (ts' & n' & a' & b' & _ & Hf); [|done|done|].
  { rewrite Hc. apply entry_not_empty. }
  assert (w1 = World (cache w)
                 (stdout w ++ [of_string "[TLE] Fetch failed (" ++ exn_str e
                               ++ of_string "), using stale cache"])
                 (S (requests w))) as Hw1 by (unfold w1; by rewrite Hf).
  assert (cache_is_fresh now' (cache w1) = Ok false) as Hstale'.
  { rewrite Hw1. simpl.
    rewrite Hc, cache_is_fresh_entry, float_sub_stale; [done|].
    unfold CACHE_TTL_SECONDS in Hold. apply Qnot_lt_le in Hold. Lqa.lra. }
  split; [by rewrite Hw1|]. split; [done|].
  unfold fetch_tle. rewrite Hstale'. rewrite Hw1. simpl.
  by destruct (match net' with NetRaise e0 => _ | NetText _ => _ end)
    as [[[? ?] ?]|]; [|destruct (truthy (cache w))].
Qed.

Lemma stale_fallback_retries_witness :
  requests
    (fetch_tle 7300 (NetRaise timeout_error)
       (fetch_tle 7200 (NetRaise timeout_error) warm_world).2).2 = 3%nat.
Proof.
  by destruct (stale_fallback_retries_on_every_call
                 7200 7300 0 iss_name iss_line1 iss_line2
                 (NetRaise timeout_error) (NetRaise timeout_error)
                 timeout_error warm_world warm_world_reachable
                 warm_world_cache ltac:(by vm_compute) eq_refl
                 ltac:(by vm_compute))
    as (_ & _ & ->).
Defined.

End fetcher_more.

(* ===================================================================== *)
(** * Further properties of the parsers                                   *)
(* ===================================================================== *)

Section rounding.

Lemma Qround_digits_close (x : Q) (ndigits : nat) :
  let unit := (1 / inject_Z (10 ^ Z.of_nat ndigits))%Q in
  (x - (1 # 2) * unit <= Qround_digits x ndigits <= x + (1 # 2) * unit)%Q.
Proof.
  intros unit. unfold Qround_digits, unit.
  assert (0 < 10 ^ Z.of_nat ndigits)%Z as Hpos by (apply Z.pow_pos_nonneg; lia).
  set (K := (10 ^ Z.of_nat ndigits)%Z) in *.
  pose proof (Qround_half_even_close (x * inject_Z K)) as [Hlo Hhi].
  set (r := inject_Z (Qround_half_even (x * inject_Z K))) in *.
  assert (0 < inject_Z K)%Q as HK.
  { change 0%Q with (inject_Z 0). by rewrite <- Zlt_Qlt. }
  set (k := inject_Z K) in *.
  assert (r / k * k == r)%Q as Hr by (field; Lqa.lra).
  assert (1 / k * k == 1)%Q as H1 by (field; Lqa.lra).
  split.
  - apply (Qmult_le_r _ _ k HK). Lqa.nra.
  - apply (Qmult_le_r _ _ k HK). Lqa.nra.
Qed.

End rounding.

Section parsers_more.
Context `{Builtins}.

Lemma Qround_digits_within (x : Q) (ndigits : nat) (half : Q) :
  ((1 # 2) * (1 / inject_Z (10 ^ Z.of_nat ndigits)) == half)%Q →
  (x - half <= Qround_digits x ndigits <= x + half)%Q.
Proof.
  intros <-. apply Qround_digits_close.
Qed.


Lemma days_before_year_window (year : Z) :
  (1957 <= year <= 2056)%Z →
  (714000 <= days_before_year year <= 751000)%Z.
Proof.
  intros Hy. unfold days_before_year.
  pose proof (Z.div_mod (year - 1) 4 ltac:(lia)).
  pose proof (Z.mod_pos_bound (year - 1) 4 ltac:(lia)).
  pose proof (Z.div_mod (year - 1) 100 ltac:(lia)).
  pose proof (Z.mod_pos_bound (year - 1) 100 ltac:(lia)).
  pose proof (Z.div_mod (year - 1) 400 ltac:(lia)).
  pose proof (Z.mod_pos_bound (year - 1) 400 ltac:(lia)).
  lia.
Qed.

(** X7: for a two-digit year and a day-of-year from 1.0 up to 367.0,
    [parse_tle_epoch] raises nothing, and the instant it formats lies
    between January 1, 00:00 of the epoch year and 366 days later. *)
Theorem epoch_lies_in_its_year
    (line1 : str) (year_2digit : Z) (day_of_year : Q)
    (Hint : py_int (take 2 (epoch_str line1)) = Ok year_2digit)
    (Hfloat : py_float (drop 2 (epoch_str line1)) = Ok day_of_year)
    (Hyy : (0 <= year_2digit <= 99)%Z)
    (Hday : (1 <= day_of_year <= 367)%Q) :
  let jan1 := (days_before_year (epoch_year year_2digit) * US_PER_DAY)%Z in
  ∃ epoch_dt : Z,
    parse_tle_epoch line1
    = Ok (strftime epoch_dt (of_string "%Y-%m-%d %H:%M:%S UTC"))
    ∧ (jan1 <= epoch_dt <= jan1 + 366 * US_PER_DAY)%Z.
Proof.
  intros jan1.
  assert (1957 <= epoch_year year_2digit <= 2056)%Z as Hyear.
  { rewrite epoch_year_cases. destruct (Z.leb_spec 57 year_2digit); lia. }
  pose proof (days_before_year_window _ Hyear) as Hdays.
  set (delta := Qround_half_even ((day_of_year - 1) * inject_Z US_PER_DAY)).
  assert (0 <= delta <= 366 * US_PER_DAY)%Z as Hdelta.
  { apply Qround_half_even_between.
    change (inject_Z (366 * US_PER_DAY)) with (31622400000000 # 1)%Q.
    change (inject_Z US_PER_DAY) with (86400000000 # 1)%Q.
    change (inject_Z 0) with 0%Q. destruct Hday. split; Lqa.lra. }
  exists (jan1 + delta)%Z. split; [|lia].
  unfold parse_tle_epoch.
  rewrite (result_bind_ok _ _ _ Hint), (result_bind_ok _ _ _ Hfloat).
  unfold epoch_datetime.
  rewrite datetime_jan1_ok by lia. fold jan1.
  assert (timedelta_days (day_of_year - 1) = Ok delta) as ->.
  { unfold timedelta_days, check_timedelta. fold delta.
    assert ((TIMEDELTA_MIN <=? delta)%Z = true) as ->.
    { apply Z.leb_le. unfold TIMEDELTA_MIN, US_PER_DAY, US_PER_SECOND in *. lia. }
    assert ((delta <=? TIMEDELTA_MAX)%Z = true) as ->; [|done].
    apply Z.leb_le. unfold TIMEDELTA_MAX, US_PER_DAY, US_PER_SECOND in *. lia. }
  cbn [mbind result_bind].
  assert (datetime_add jan1 delta = Ok (jan1 + delta)%Z) as ->; [|done].
  unfold datetime_add, check_datetime.
  assert ((DATETIME_MIN <=? jan1 + delta)%Z = true) as ->.
  { apply Z.leb_le. unfold jan1, DATETIME_MIN, US_PER_DAY, US_PER_SECOND in *. lia. }
  assert ((jan1 + delta <=? DATETIME_MAX)%Z = true) as ->; [|done].
  apply Z.leb_le. unfold jan1, DATETIME_MAX, US_PER_DAY, US_PER_SECOND in *. lia.
Qed.

End parsers_more.


Lemma epoch_in_year_witness :
  ∃ epoch_dt : Z,
    @parse_tle_epoch ascii_builtins iss_line1 = Ok (str_int epoch_dt)
    ∧ (days_before_year 2024 * US_PER_DAY <= epoch_dt
       <= days_before_year 2024 * US_PER_DAY + 366 * US_PER_DAY)%Z.
Proof.
  apply (@epoch_lies_in_its_year ascii_builtins iss_line1 24%Z
           (100000000 # 100000000)%Q
           ltac:(by vm_compute) ltac:(by vm_compute)
           ltac:(done) ltac:(done)).
Defined.

(* ===================================================================== *)
(** * Further properties of the frame transforms                          *)
(* ===================================================================== *)

Section frames_more.

Local Open Scope R_scope.

Lemma refine_times_eq (n : nat) (z p lat : R) :
  refine_times n z p lat
  = (Ok (refined_times n z p lat), roots_times n z p lat).
Proof.
  revert lat. induction n as [|n IH]; intros lat; [done|].
  cbn [refine_times refined_times roots_times].
  erewrite traced_bind_ok; [|apply refine_ok|apply IH]. done.
Qed.

Lemma refined_times_range (n : nat) (z p lat : R) :
  0 <= p → - (PI / 2) <= lat <= PI / 2 →
  - (PI / 2) <= refined_times n z p lat <= PI / 2.
Proof.
  intros Hp. revert lat. induction n as [|n IH]; intros lat Hlat; [done|].
  cbn [refined_times]. apply IH. by apply atan2_range.
Qed.

Lemma latitude_of_range (p z : R) :
  0 <= p → - (PI / 2) <= latitude_of p z <= PI / 2.
Proof.
  intros Hp. pose proof wgs84_e2_bounds as He2.
  assert (0 <= p * (1.0 - wgs84_e2)) as Hp'.
  { apply Rmult_le_pos; lra. }
  unfold latitude_of.
  exact (refined_times_range 5 z p _ Hp (atan2_range z _ Hp')).
Qed.

(** [geodetic_rad] in closed form: it raises on no 3-vector. *)
Lemma geodetic_rad_eq (x y z : R) :
  let p := sqrt (x * x + y * y) in
  geodetic_rad [x; y; z]
  = (Ok (latitude_of p z, atan2 y x, altitude_of p z), divisors_of p z).
Proof.
  intros p.
  assert (0 <= x * x + y * y) as Hxy by nra.
  pose proof (root_bounds (latitude_of p z)) as Hroot.
  pose proof (radicand_bounds (latitude_of p z)) as Hrad.
  unfold altitude_of, divisors_of, root_at in *.
  destruct (Rlt_dec 1e-10 (Rabs (cos (latitude_of p z)))) as [Hc|Hc].
  - unfold geodetic_rad. etrans.
    { eapply traced_bind_ok.
      { unfold lift. rewrite math_sqrt_ok by done. reflexivity. }
      eapply traced_bind_ok; [apply refine_times_eq|].
      fold p. fold (latitude_of p z).
      eapply traced_bind_ok.
      { unfold lift. rewrite math_sqrt_ok by lra. reflexivity. }
      eapply traced_bind_ok; [apply float_div_ok; lra|].
      eapply traced_bind_ok; [|reflexivity].
      destruct (Rlt_dec 1e-10 (Rabs (cos (latitude_of p z)))); [|done].
      eapply traced_bind_ok; [|reflexivity].
      apply float_div_ok. intros Hz. rewrite Hz, Rabs_R0 in Hc. lra. }
    by rewrite !app_nil_r.
  - pose proof (polar_sin (latitude_of p z) ltac:(lra)) as Hsin.
    unfold geodetic_rad. etrans.
    { eapply traced_bind_ok.
      { unfold lift. rewrite math_sqrt_ok by done. reflexivity. }
      eapply traced_bind_ok; [apply refine_times_eq|].
      fold p. fold (latitude_of p z).
      eapply traced_bind_ok.
      { unfold lift. rewrite math_sqrt_ok by lra. reflexivity. }
      eapply traced_bind_ok; [apply float_div_ok; lra|].
      eapply traced_bind_ok; [|reflexivity].
      destruct (Rlt_dec 1e-10 (Rabs (cos (latitude_of p z)))); [done|].
      eapply traced_bind_ok; [|reflexivity].
      apply float_div_ok. lra. }
    by rewrite !app_nil_r.
Qed.

(** ** Rotation *)

(** X8: two rotations in a row are the rotation by the sum of the angles;
    in particular rotating back by the negated angle undoes a rotation. *)
Theorem rotations_add (x y z a b : R) :
  (r ← eci_to_ecef [x; y; z] a; eci_to_ecef r b)
  = eci_to_ecef [x; y; z] (a + b).
Proof.
  rewrite !eci_to_ecef_vector. cbn [mbind result_bind].
  rewrite eci_to_ecef_vector, cos_plus, sin_plus.
  do 2 f_equal; [ring|]. f_equal. ring.
Qed.

(** X9: [eci_to_ecef] reads the first three components only: a list with
    fewer raises [IndexError], and anything after the third is ignored. *)
Theorem eci_to_ecef_reads_three_components (r_eci : list R) (theta : R) :
  ((length r_eci < 3)%nat →
   eci_to_ecef r_eci theta
   = Err (IndexError (of_string "list index out of range")))
  ∧ (∀ x y z rest,
       r_eci = x :: y :: z :: rest →
       eci_to_ecef r_eci theta = eci_to_ecef [x; y; z] theta).
Proof.
  split.
  - destruct r_eci as [|x [|y [|z rest]]]; simpl; try done. lia.
  - by intros x y z rest ->.
Qed.

Lemma eci_to_ecef_reads_three_witness :
  eci_to_ecef [6778; 0] 1
  = Err (IndexError (of_string "list index out of range"))
  ∧ eci_to_ecef [6778; 0; 0; 42] 1 = eci_to_ecef [6778; 0; 0] 1.
Proof.
  destruct (eci_to_ecef_reads_three_components [6778; 0] 1) as [Hshort _].
  destruct (eci_to_ecef_reads_three_components [6778; 0; 0; 42] 1)
    as [_ Hlong].
  split; [apply Hshort; simpl; lia|by apply (Hlong _ _ _ [42])].
Defined.

(** ** Speed *)

Lemma compute_speed_vector (a b c : R) :
  compute_speed [a; b; c] = Ok (sqrt (a ^ 2 + b ^ 2 + c ^ 2)).
Proof. apply (compute_speed_ok (a, b, c)). Qed.

Lemma square_below (a K : R) : Rabs a <= K → a ^ 2 <= K * K.
Proof.
  intros Ha. pose proof (Rabs_pos a) as Hpos.
  replace (a ^ 2) with (Rabs a * Rabs a)
    by (rewrite <- Rabs_mult, Rabs_pos_eq; nra).
  nra.
Qed.

Lemma norm_below (a b c K : R) :
  Rabs a <= K → Rabs b <= K → Rabs c <= K →
  0 <= sqrt (a ^ 2 + b ^ 2 + c ^ 2) <= 2 * K.
Proof.
  intros Ha Hb Hc.
  pose proof (square_below a K Ha). pose proof (square_below b K Hb).
  pose proof (square_below c K Hc).
  pose proof (Rabs_pos a) as Hpos. assert (0 <= K) as HK by lra.
  pose proof (pow2_ge_0 a). pose proof (pow2_ge_0 b). pose proof (pow2_ge_0 c).
  split; [apply sqrt_pos|].
  rewrite <- (sqrt_square (2 * K)) by lra.
  apply sqrt_le_1; nra.
Qed.

(** X10: for a velocity whose components are at most 10^150 in magnitude,
    so that no square overflows, [compute_speed] returns the Euclidean
    norm: a non-negative number, at most 2 * 10^150, whose square is the
    sum of the squares; it is the same in the rotated frame; a list with
    fewer than three components raises [IndexError]. *)
Theorem speed_is_the_euclidean_norm (a b c theta : R) :
  Rabs a <= 10 ^ 150 → Rabs b <= 10 ^ 150 → Rabs c <= 10 ^ 150 →
  ∃ speed : R,
    compute_speed [a; b; c] = Ok speed
    ∧ 0 <= speed <= 2 * 10 ^ 150
    ∧ speed * speed = a ^ 2 + b ^ 2 + c ^ 2
    ∧ (v ← eci_to_ecef [a; b; c] theta; compute_speed v) = Ok speed
    ∧ compute_speed [a; b]
      = Err (IndexError (of_string "list index out of range")).
Proof.
  intros Ha Hb Hc.
  exists (sqrt (a ^ 2 + b ^ 2 + c ^ 2)).
  assert (0 <= a ^ 2 + b ^ 2 + c ^ 2) as Hpos.
  { pose proof (pow2_ge_0 a). pose proof (pow2_ge_0 b).
    pose proof (pow2_ge_0 c). lra. }
  split; [apply compute_speed_vector|].
  split; [by apply norm_below|]. split; [by apply sqrt_sqrt|]. split; [|done].
  rewrite eci_to_ecef_vector. cbn [mbind result_bind].
  rewrite compute_speed_vector. do 2 f_equal.
  pose proof (sin2_cos2 theta) as Hsc. unfold Rsqr in Hsc.
  replace (a ^ 2 + b ^ 2 + c ^ 2)
    with ((a ^ 2 + b ^ 2) * (sin theta * sin theta + cos theta * cos theta)
          + c ^ 2) by (rewrite Hsc; ring).
  ring.
Qed.

Lemma small_below_bound (x : R) : Rabs x <= 10 ^ 4 → Rabs x <= 10 ^ 150.
Proof.
  intros Hx. apply Rle_trans with (10 ^ 4); [done|].
  apply Rle_pow; [lra|lia].
Qed.

Lemma speed_witness :
  ∃ speed : R,
    compute_speed [0; 7.66; 0] = Ok speed ∧ 0 <= speed <= 2 * 10 ^ 150.
Proof.
  destruct (speed_is_the_euclidean_norm 0 7.66 0 0) as (speed & Hs & Hr & _).
  - apply small_below_bound. rewrite Rabs_R0. apply pow_le. lra.
  - apply small_below_bound. rewrite Rabs_pos_eq by lra. simpl. lra.
  - apply small_below_bound. rewrite Rabs_R0. apply pow_le. lra.
  - eauto.
Defined.

(** ** Geodetic conversion *)

Lemma ecef_to_geodetic_eq (x y z : R) :
  let p := sqrt (x * x + y * y) in
  ecef_to_geodetic [x; y; z]
  = (Ok (math_degrees (latitude_of p z), math_degrees (atan2 y x),
         altitude_of p z),
     divisors_of p z).
Proof. intros p. apply ecef_to_geodetic_of_rad, geodetic_rad_eq. Qed.

Lemma atan2_bounds (y x : R) : - PI < atan2 y x <= PI.
Proof.
  unfold atan2. pose proof PI_RGT_0 as Hpi.
  destruct (Rlt_dec 0 x) as [Hx|Hx].
  - pose proof (atan_bound (y / x)). lra.
  - destruct (Rlt_dec x 0) as [Hneg|Hneg].
    + pose proof (atan_bound (y / x)) as Hb.
      assert (/ x < 0) as Hinv by (by apply Rinv_lt_0_compat).
      destruct (Rle_dec 0 y) as [Hy|Hy].
      * assert (y / x <= 0) as Hq by (unfold Rdiv; nra).
        assert (atan (y / x) <= 0); [|lra].
        destruct Hq as [Hq|Hq].
        -- pose proof (atan_increasing _ _ Hq). rewrite atan_0 in *. lra.
        -- rewrite Hq, atan_0. lra.
      * assert (0 < y / x) as Hq by (unfold Rdiv; nra).
        pose proof (atan_increasing _ _ Hq). rewrite atan_0 in *. lra.
    + destruct (Rlt_dec 0 y); [lra|]. destruct (Rlt_dec y 0); lra.
Qed.

Lemma atan2_opp (y x : R) : 0 <= x → atan2 (- y) x = - atan2 y x.
Proof.
  intros Hx. unfold atan2.
  destruct (Rlt_dec 0 x) as [Hpos|Hpos].
  - replace (- y / x) with (- (y / x)) by (field; lra). apply atan_opp.
  - destruct (Rlt_dec x 0); [lra|].
    destruct (Rlt_dec 0 y), (Rlt_dec y 0), (Rlt_dec 0 (- y)),
      (Rlt_dec (- y) 0); lra.
Qed.

Lemma atan2_zero (x : R) : 0 <= x → atan2 0 x = 0.
Proof.
  intros Hx. unfold atan2.
  destruct (Rlt_dec 0 x).
  - replace (0 / x) with 0 by (field; lra). apply atan_0.
  - destruct (Rlt_dec x 0); [lra|]. destruct (Rlt_dec 0 0); lra.
Qed.

Lemma rotated_axis_distance (x y theta : R) :
  (x * cos theta + y * sin theta) * (x * cos theta + y * sin theta)
  + (- x * sin theta + y * cos theta) * (- x * sin theta + y * cos theta)
  = x * x + y * y.
Proof.
  pose proof (sin2_cos2 theta) as Hsc. unfold Rsqr in Hsc.
  replace (x * x + y * y)
    with ((x * x + y * y) * (sin theta * sin theta + cos theta * cos theta))
    by (rewrite Hsc; ring).
  ring.
Qed.


(** X12: [ecef_to_geodetic] unpacks exactly three components: any other
    length raises [ValueError] before anything is computed or divided. *)
Theorem geodetic_needs_exactly_three_components (r_ecef : list R) :
  length r_ecef ≠ 3%nat →
  ∃ msg, ecef_to_geodetic r_ecef = (Err (ValueError msg), []).
Proof.
  intros Hlen.
  destruct r_ecef as [|x [|y [|z [|t rest]]]]; try done; by eexists.
Qed.

Lemma geodetic_needs_three_witness :
  ∃ msg, ecef_to_geodetic [6778; 0] = (Err (ValueError msg), []).
Proof.
  apply geodetic_needs_exactly_three_components. simpl. lia.
Defined.

(** X13: on every 3-vector [ecef_to_geodetic] returns a latitude between
    -90 and 90 degrees and a longitude between -180 and 180 degrees, the
    ends included. *)
Theorem geodetic_angles_in_range (x y z : R) :
  ∃ lat lon alt,
    (ecef_to_geodetic [x; y; z]).1 = Ok (lat, lon, alt)
    ∧ -90 <= lat <= 90
    ∧ -180 <= lon <= 180.
Proof.
  rewrite ecef_to_geodetic_eq. eexists _, _, _. split; [reflexivity|].
  pose proof (latitude_of_range (sqrt (x * x + y * y)) z (sqrt_pos _))
    as [Hlo Hhi].
  pose proof (atan2_bounds y x) as [Hlo' Hhi'].
  pose proof PI_RGT_0 as Hpi. unfold math_degrees.
  assert (0 < 180 / PI) as Hk by (apply Rdiv_lt_0_compat; lra).
  assert (180 / PI * PI = 180) as HkPI by (field; lra).
  set (k := 180 / PI) in *.
  set (lat := latitude_of _ _) in *. set (lon := atan2 y x) in *.
  repeat split; nra.
Qed.

(** X14: whatever the 3-vector and whichever altitude formula is used,
    [ecef_to_geodetic] makes seven divisions by computed quantities and
    none of the divisors is within 1e-10 of zero. *)
Theorem geodetic_never_divides_near_zero (x y z : R) :
  ∃ result divs,
    ecef_to_geodetic [x; y; z] = (Ok result, divs)
    ∧ length divs = 7%nat
    ∧ Forall (λ d, 1e-10 < Rabs d) divs.
Proof.
  rewrite ecef_to_geodetic_eq. eexists _, _. split; [reflexivity|].
  set (p := sqrt (x * x + y * y)). unfold divisors_of.
  split; [done|].
  assert (∀ n lat, Forall (λ d, 1e-10 < Rabs d) (roots_times n z p lat))
    as Hroots.
  { induction n as [|n IH]; intros lat; cbn [roots_times]; constructor;
      [|apply IH].
    pose proof (root_bounds lat). unfold root_at. rewrite Rabs_pos_eq; lra. }
  apply Forall_app. split; [apply Hroots|].
  pose proof (root_bounds (latitude_of p z)) as Hroot.
  constructor; [unfold root_at; rewrite Rabs_pos_eq; lra|].
  constructor; [|constructor].
  destruct (Rlt_dec 1e-10 (Rabs (cos (latitude_of p z)))) as [Hc|Hc]; [done|].
  pose proof (polar_sin (latitude_of p z) ltac:(lra)).
  rewrite Rabs_Rabsolu. lra.
Qed.

Lemma refined_times_equator (n : nat) (p : R) :
  0 <= p → refined_times n 0 p 0 = 0.
Proof.
  intros Hp. induction n as [|n IH]; [done|].
  cbn [refined_times]. unfold refined at 1. rewrite sin_0.
  replace (0 + wgs84_e2 * (wgs84_a / root_at 0) * 0) with 0 by ring.
  by rewrite atan2_zero.
Qed.

(** X15: a position in the equatorial plane has latitude 0 and an
    altitude equal to its distance from the centre minus the equatorial
    radius 6378.137 km. *)
Theorem equatorial_plane_has_latitude_zero (x y : R) :
  ∃ divs,
    ecef_to_geodetic [x; y; 0]
    = (Ok (0, math_degrees (atan2 y x), sqrt (x * x + y * y) - 6378.137),
       divs).
Proof.
  rewrite ecef_to_geodetic_eq. eexists.
  set (p := sqrt (x * x + y * y)).
  assert (0 <= p) as Hp by apply sqrt_pos.
  pose proof wgs84_e2_bounds as He2.
  assert (latitude_of p 0 = 0) as Hlat.
  { unfold latitude_of. rewrite atan2_zero by (apply Rmult_le_pos; lra).
    by apply refined_times_equator. }
  unfold altitude_of. rewrite Hlat, cos_0.
  destruct (Rlt_dec 1e-10 (Rabs 1)) as [_|Hc].
  - unfold root_at, math_degrees. rewrite sin_0.
    replace (1.0 - wgs84_e2 * 0 * 0) with 1 by lra. rewrite sqrt_1.
    unfold wgs84_a.
    replace (p / 1 - 6378.137 / 1) with (p - 6378.137) by field.
    by replace (0 * (180 / PI)) with 0 by ring.
  - rewrite Rabs_pos_eq in Hc; lra.
Qed.

Lemma refined_opp (z p lat : R) :
  0 <= p → refined (- z) p (- lat) = - refined z p lat.
Proof.
  intros Hp. unfold refined, root_at. rewrite sin_neg.
  replace (1.0 - wgs84_e2 * - sin lat * - sin lat)
    with (1.0 - wgs84_e2 * sin lat * sin lat) by ring.
  rewrite <- atan2_opp by done. f_equal. ring.
Qed.

Lemma root_at_opp (lat : R) : root_at (- lat) = root_at lat.
Proof. unfold root_at. rewrite sin_neg. f_equal. ring. Qed.

Lemma refined_times_opp (n : nat) (z p lat : R) :
  0 <= p →
  refined_times n (- z) p (- lat) = - refined_times n z p lat
  ∧ roots_times n (- z) p (- lat) = roots_times n z p lat.
Proof.
  intros Hp. revert lat. induction n as [|n IH]; intros lat; [done|].
  cbn [refined_times roots_times].
  rewrite refined_opp, root_at_opp by done.
  destruct (IH (refined z p lat)) as [-> ->]. done.
Qed.

(** X16: mirroring a position in the equatorial plane negates the
    latitude and changes nothing else: same longitude, same altitude,
    same divisions. *)
Theorem geodetic_north_south_symmetry (x y z : R) :
  ∃ lat lon alt divs,
    ecef_to_geodetic [x; y; z] = (Ok (lat, lon, alt), divs)
    ∧ ecef_to_geodetic [x; y; - z] = (Ok (- lat, lon, alt), divs).
Proof.
  eexists _, _, _, _. split; [apply ecef_to_geodetic_eq|].
  rewrite ecef_to_geodetic_eq.
  set (p := sqrt (x * x + y * y)).
  assert (0 <= p) as Hp by apply sqrt_pos.
  assert (latitude_of p (- z) = - latitude_of p z
          ∧ roots_times 5 (- z) p (atan2 (- z) (p * (1.0 - wgs84_e2)))
            = roots_times 5 z p (atan2 z (p * (1.0 - wgs84_e2))))
    as [Hlat Hroots].
  { pose proof wgs84_e2_bounds. unfold latitude_of.
    rewrite atan2_opp by (apply Rmult_le_pos; lra).
    by apply refined_times_opp. }
  unfold altitude_of, divisors_of.
  rewrite Hlat, Hroots, root_at_opp, cos_neg, sin_neg, !Rabs_Ropp.
  unfold math_degrees. do 2 f_equal. f_equal. f_equal. ring.
Qed.

End frames_more.

(* ===================================================================== *)
(** * Further properties of the sidereal angle and the state composer     *)
(* ===================================================================== *)

Section composer_more.
Context `{Calendar} `{Sgp4}.

Local Open Scope R_scope.

Lemma compute_gmst_eq (dt : Z) :
  compute_gmst dt
  = math_radians
      (float_mod (280.46061837
                  + 360.98564736629
                    * ((jday_of dt).1 + (jday_of dt).2 - 2451545.0)) 360).
Proof.
  unfold compute_gmst. destruct (jday_of dt) as [jd fr]. simpl.
  by replace 360.0 with 360 by lra.
Qed.

Lemma compute_gmst_range (dt : Z) : 0 <= compute_gmst dt < 2 * PI.
Proof.
  rewrite compute_gmst_eq. unfold math_radians.
  match goal with |- context [float_mod ?x 360] =>
    pose proof (float_mod_range x 360 ltac:(lra)) as [Hlo Hhi];
    set (m := float_mod x 360) in *
  end.
  pose proof PI_RGT_0. split; nra.
Qed.

(** X17: whatever the instant and whatever Julian date the solver
    library computes for it, the sidereal angle returned is at least 0
    and less than a full turn: the remainder of line 107 is never
    negative. *)
Theorem gmst_is_normalised (dt : Z) : 0 <= compute_gmst dt < 2 * PI.
Proof. apply compute_gmst_range. Qed.

(** Once [propagate] has returned, [get_full_state] returns a state. *)
Lemma get_full_state_total (utcnow : Z) (tle_line1 tle_line2 : str)
    (dt : option Z) (r_eci v_eci : list R) :
  propagate tle_line1 tle_line2 (default utcnow dt) = Ok (r_eci, v_eci) →
  ∃ st, get_full_state utcnow tle_line1 tle_line2 dt = Ok st.
Proof.
  intros Hprop.
  destruct (propagate_ok_shape _ _ _ _ _ Hprop)
    as ([[x y] z] & [[vx vy] vz] & -> & ->).
  set (g := compute_gmst (default utcnow dt)).
  destruct (ecef_to_geodetic_total
              (x * cos g + y * sin g) (- x * sin g + y * cos g) z)
    as (lat & lon & alt & Hgeo).
  eexists.
  apply (get_full_state_eq utcnow tle_line1 tle_line2 dt _ _ _
           lat lon alt _ Hprop (eci_to_ecef_vector x y z _) Hgeo
           (compute_speed_ok (vx, vy, vz))).
Qed.

Lemma round_half_even_between (x : R) (a b : Z) :
  IZR a <= x <= IZR b → (a <= round_half_even x <= b)%Z.
Proof.
  intros [Ha Hb]. unfold round_half_even.
  destruct (base_Int_part x) as [Hlo Hhi].
  pose proof (base_fp x) as [Hf0 Hf1].
  assert (x = IZR (Int_part x) + frac_part x) as Hx
    by (unfold frac_part; lra).
  assert (a <= Int_part x)%Z as Hfl.
  { apply Z.lt_succ_r, lt_IZR. rewrite succ_IZR. lra. }
  assert (Int_part x <= b)%Z as Hfl' by (apply le_IZR; lra).
  assert (0 < frac_part x → (Int_part x + 1 <= b)%Z) as Hup.
  { intros Hpos. apply Z.le_succ_l, lt_IZR. lra. }
  destruct (Rlt_dec (frac_part x) (1 / 2)); [lia|].
  destruct (Rlt_dec (1 / 2) (frac_part x)).
  - split; [lia|]. apply Hup. lra.
  - destruct (Z.even (Int_part x)); [lia|]. split; [lia|]. apply Hup. lra.
Qed.

Lemma py_round_between (x : R) (ndigits : nat) (a b : Z) :
  IZR a / 10 ^ ndigits <= x <= IZR b / 10 ^ ndigits →
  IZR a / 10 ^ ndigits <= py_round x ndigits <= IZR b / 10 ^ ndigits.
Proof.
  intros [Ha Hb]. unfold py_round.
  assert (0 < 10 ^ ndigits) as Hpos by (apply pow_lt; lra).
  set (K := 10 ^ ndigits) in *.
  assert (IZR a <= x * K <= IZR b) as Hscaled.
  { split.
    - apply (Rmult_le_compat_r K) in Ha; [|lra].
      unfold Rdiv in Ha. rewrite Rmult_assoc, Rinv_l, Rmult_1_r in Ha; lra.
    - apply (Rmult_le_compat_r K) in Hb; [|lra].
      unfold Rdiv in Hb. rewrite Rmult_assoc, Rinv_l, Rmult_1_r in Hb; lra. }
  destruct (round_half_even_between _ _ _ Hscaled) as [Hlo Hhi].
  apply IZR_le in Hlo, Hhi.
  split; apply Rmult_le_compat_r; try done;
    apply Rlt_le, Rinv_0_lt_compat; lra.
Qed.

Lemma rotated_below (x y K theta : R) :
  Rabs x <= K → Rabs y <= K →
  Rabs (x * cos theta + y * sin theta) <= 2 * K
  ∧ Rabs (- x * sin theta + y * cos theta) <= 2 * K.
Proof.
  intros Hx Hy.
  assert (Rabs (cos theta) <= 1) as Hc by (apply Rabs_le, COS_bound).
  assert (Rabs (sin theta) <= 1) as Hs by (apply Rabs_le, SIN_bound).
  pose proof (Rabs_pos x). pose proof (Rabs_pos y).
  pose proof (Rabs_pos (cos theta)). pose proof (Rabs_pos (sin theta)).
  split.
  - etrans; [apply Rabs_triang|]. rewrite !Rabs_mult. nra.
  - etrans; [apply Rabs_triang|]. rewrite !Rabs_mult, Rabs_Ropp. nra.
Qed.

Lemma py_round_below (v : R) (ndigits : nat) (b : Z) :
  Rabs v <= IZR b / 10 ^ ndigits →
  Rabs (py_round v ndigits) <= IZR b / 10 ^ ndigits.
Proof.
  intros Hv. apply Rabs_le.
  replace (- (IZR b / 10 ^ ndigits)) with (IZR (- b) / 10 ^ ndigits)
    by (rewrite opp_IZR; unfold Rdiv; ring).
  apply py_round_between.
  replace (IZR (- b) / 10 ^ ndigits) with (- (IZR b / 10 ^ ndigits))
    by (rewrite opp_IZR; unfold Rdiv; ring).
  pose proof (Rle_abs v) as Hup. pose proof (Rle_abs (- v)) as Hdown.
  rewrite Rabs_Ropp in Hdown. split; lra.
Qed.

Lemma position_bound_scaled : IZR (2 * 10 ^ 152) / 10 ^ 2 = 2 * 10 ^ 150.
Proof.
  rewrite mult_IZR. change 152%Z with (Z.of_nat 152).
  rewrite <- pow_IZR. change 152%nat with (150 + 2)%nat.
  rewrite pow_add. field.
Qed.

Lemma speed_bound_scaled : IZR (2 * 10 ^ 154) / 10 ^ 4 = 2 * 10 ^ 150.
Proof.
  rewrite mult_IZR. change 154%Z with (Z.of_nat 154).
  rewrite <- pow_IZR. change 154%nat with (150 + 4)%nat.
  rewrite pow_add. field.
Qed.

(** X18: [get_full_state] passes on every exception of [propagate]
    unchanged and adds none of its own: once the solver has answered with
    a position and a velocity whose components are at most 10^150 in
    magnitude, so that no float operation overflows, the frame rotation,
    the geodetic conversion and the speed raise nothing, a state is
    returned, and its speed and the components of its Earth-fixed
    position are at most 2 * 10^150 in magnitude. *)
Theorem state_raises_only_when_propagation_does
    (utcnow : Z) (tle_line1 tle_line2 : str) (dt : option Z) :
  let t := default utcnow dt in
  (∀ e : exn,
     propagate tle_line1 tle_line2 t = Err e →
     get_full_state utcnow tle_line1 tle_line2 dt = Err e)
  ∧ (∀ r_eci v_eci : list R,
       propagate tle_line1 tle_line2 t = Ok (r_eci, v_eci) →
       Forall (λ c, Rabs c <= 10 ^ 150) r_eci →
       Forall (λ c, Rabs c <= 10 ^ 150) v_eci →
       ∃ st : full_state,
         get_full_state utcnow tle_line1 tle_line2 dt = Ok st
         ∧ 0 <= st_speed_km_s st <= 2 * 10 ^ 150
         ∧ Forall (λ c, Rabs c <= 2 * 10 ^ 150) (st_r_ecef st)).
Proof.
  intros t. split.
  - intros e Hprop. unfold get_full_state. fold t. by rewrite Hprop.
  - intros r_eci v_eci Hprop Hr Hv.
    destruct (propagate_ok_shape _ _ _ _ _ Hprop)
      as ([[x y] z] & [[vx vy] vz] & -> & ->).
    set (g := compute_gmst t).
    destruct (ecef_to_geodetic_total
                (x * cos g + y * sin g) (- x * sin g + y * cos g) z)
      as (lat & lon & alt & Hgeo).
    eexists. split.
    { apply (get_full_state_eq utcnow tle_line1 tle_line2 dt _ _ _
               lat lon alt _ Hprop (eci_to_ecef_vector x y z _) Hgeo
               (compute_speed_ok (vx, vy, vz))). }
    cbn [st_speed_km_s st_r_ecef fst snd].
    apply Forall_cons in Hv as [Hvx Hv]. apply Forall_cons in Hv as [Hvy Hv].
    apply Forall_cons in Hv as [Hvz _]. cbn [fst snd] in Hvx, Hvy, Hvz.
    apply Forall_cons in Hr as [Hx Hr]. apply Forall_cons in Hr as [Hy Hr].
    apply Forall_cons in Hr as [Hz _]. cbn [fst snd] in Hx, Hy, Hz.
    split.
    + pose proof (norm_below vx vy vz (10 ^ 150) Hvx Hvy Hvz) as Hnorm.
      replace 0 with (IZR 0 / 10 ^ 4) at 1 by (unfold Rdiv; ring).
      rewrite <- speed_bound_scaled. apply py_round_between.
      rewrite speed_bound_scaled.
      by replace (IZR 0 / 10 ^ 4) with 0 by (unfold Rdiv; ring).
    + destruct (rotated_below x y (10 ^ 150) g Hx Hy) as [Hx' Hy'].
      assert (0 <= 10 ^ 150) as HK by (apply pow_le; lra).
      cbn [fmap list_fmap]. rewrite <- position_bound_scaled.
      repeat apply Forall_cons_2; [..|apply Forall_nil_2];
        apply py_round_below; rewrite position_bound_scaled; [done|done|lra].
Qed.

(** X19: every state [get_full_state] returns has its latitude in
    [-90, 90], its longitude in [-180, 180], its sidereal angle in degrees
    in [0, 360], a non-negative speed, and three components in each of
    its three vectors. *)
Theorem full_state_fields_in_range
    (utcnow : Z) (tle_line1 tle_line2 : str) (dt : option Z)
    (st : full_state)
    (Hstate : get_full_state utcnow tle_line1 tle_line2 dt = Ok st) :
  -90 <= st_lat st <= 90
  ∧ -180 <= st_lon st <= 180
  ∧ 0 <= st_gmst_deg st <= 360
  ∧ 0 <= st_speed_km_s st
  ∧ length (st_r_eci st) = 3%nat
  ∧ length (st_v_eci st) = 3%nat
  ∧ length (st_r_ecef st) = 3%nat.
Proof.
  set (t := default utcnow dt) in *.
  destruct (propagate tle_line1 tle_line2 t) as [[r_eci v_eci]|e'] eqn:Hprop.
  2: { unfold get_full_state in Hstate. fold t in Hstate.
       by rewrite Hprop in Hstate. }
  destruct (propagate_ok_shape _ _ _ _ _ Hprop)
    as ([[x y] z] & [[vx vy] vz] & -> & ->).
  set (g := compute_gmst t) in *.
  pose proof (ecef_to_geodetic_eq
                (x * cos g + y * sin g) (- x * sin g + y * cos g) z) as Hgeo.
  apply (f_equal fst) in Hgeo. cbn [fst] in Hgeo.
  rewrite (get_full_state_eq utcnow tle_line1 tle_line2 dt _ _ _
             _ _ _ _ Hprop (eci_to_ecef_vector x y z _) Hgeo
             (compute_speed_ok (vx, vy, vz))) in Hstate.
  injection Hstate as <-.
  cbn [st_lat st_lon st_gmst_deg st_speed_km_s st_r_eci st_v_eci st_r_ecef].
  pose proof PI_RGT_0 as Hpi.
  assert (0 < 180 / PI) as Hk by (apply Rdiv_lt_0_compat; lra).
  assert (180 / PI * PI = 180) as HkPI by (field; lra).
  split; [|split; [|split; [|split; [|done]]]].
  - pose proof (latitude_of_range
                  (sqrt ((x * cos g + y * sin g) * (x * cos g + y * sin g)
                         + (- x * sin g + y * cos g)
                           * (- x * sin g + y * cos g))) z (sqrt_pos _))
      as [Hlo Hhi].
    set (lat := latitude_of _ _) in *.
    replace (-90) with (IZR (-900000) / 10 ^ 4) by (simpl; lra).
    replace 90 with (IZR 900000 / 10 ^ 4) by (simpl; lra).
    apply py_round_between. unfold math_degrees. set (k := 180 / PI) in *.
    cbn [pow]. split; nra.
  - pose proof (atan2_bounds (- x * sin g + y * cos g)
                  (x * cos g + y * sin g)) as [Hlo Hhi].
    set (lon := atan2 _ _) in *.
    replace (-180) with (IZR (-1800000) / 10 ^ 4) by (simpl; lra).
    replace 180 with (IZR 1800000 / 10 ^ 4) by (simpl; lra).
    apply py_round_between. unfold math_degrees. set (k := 180 / PI) in *.
    cbn [pow]. split; nra.
  - assert (0 <= g < 2 * PI) as [Hlo Hhi] by apply compute_gmst_range.
    change (compute_gmst (default utcnow dt)) with g.
    replace 0 with (IZR 0 / 10 ^ 4) at 1 by (simpl; lra).
    replace 360 with (IZR 3600000 / 10 ^ 4) by (simpl; lra).
    apply py_round_between. unfold math_degrees. set (k := 180 / PI) in *.
    cbn [pow]. split; nra.
  - pose proof (sqrt_pos (vx ^ 2 + vy ^ 2 + vz ^ 2)) as Hs.
    cbn [fst snd].
    assert (IZR 0 / 10 ^ 4 <= py_round (sqrt (vx ^ 2 + vy ^ 2 + vz ^ 2)) 4)
      as Hr; [|simpl in Hr; lra].
    unfold py_round.
    assert (0 < 10 ^ 4) as Hpos by (apply pow_lt; lra).
    apply Rmult_le_compat_r; [apply Rlt_le, Rinv_0_lt_compat; lra|].
    apply IZR_le.
    assert (0 <= sqrt (vx ^ 2 + vy ^ 2 + vz ^ 2) * 10 ^ 4) as Hscaled
      by (apply Rmult_le_pos; lra).
    set (v := sqrt (vx ^ 2 + vy ^ 2 + vz ^ 2) * 10 ^ 4) in *.
    unfold round_half_even.
    destruct (base_Int_part v) as [Hlo Hhi].
    assert (0 <= Int_part v)%Z.
    { apply Z.lt_succ_r, lt_IZR. rewrite succ_IZR. lra. }
    destruct (Rlt_dec (frac_part v) (1 / 2)); [lia|].
    destruct (Rlt_dec (1 / 2) (frac_part v)); [lia|].
    destruct (Z.even (Int_part v)); lia.
Qed.

End composer_more.

Lemma state_raises_witness :
  ∃ st : full_state,
    @get_full_state noon_calendar (fixed_solver 0) 0 iss_line1 iss_line2 None
    = Ok st
    ∧ (0 <= st_speed_km_s st <= 2 * 10 ^ 150)%R.
Proof.
  destruct (@state_raises_only_when_propagation_does
              noon_calendar (fixed_solver 0) 0%Z iss_line1 iss_line2 None)
    as [_ Hgood].
  destruct (Hgood [6778; 0; 0]%R [0; 7.66; 0]%R) as (st & Hst & Hspeed & _);
    [| | |by exists st].
  - exact (@propagate_eq noon_calendar (fixed_solver 0)
             iss_line1 iss_line2 0%Z () 0%Z (6778, 0, 0)%R (0, 7.66, 0)%R
             eq_refl eq_refl).
  - repeat apply Forall_cons_2; [..|apply Forall_nil_2];
      apply small_below_bound.
    + rewrite Rabs_pos_eq by lra. simpl. lra.
    + rewrite Rabs_R0. apply pow_le. lra.
    + rewrite Rabs_R0. apply pow_le. lra.
  - repeat apply Forall_cons_2; [..|apply Forall_nil_2];
      apply small_below_bound.
    + rewrite Rabs_R0. apply pow_le. lra.
    + rewrite Rabs_pos_eq by lra. simpl. lra.
    + rewrite Rabs_R0. apply pow_le. lra.
Defined.

Lemma full_state_fields_witness :
  ∃ st,
    @get_full_state noon_calendar (fixed_solver 0) 0 iss_line1 iss_line2 None
    = Ok st
    ∧ (-90 <= st_lat st <= 90)%R.
Proof.
  destruct (@get_full_state_total noon_calendar (fixed_solver 0) 0%Z
              iss_line1 iss_line2 None _ _
              (@propagate_eq noon_calendar (fixed_solver 0)
                 iss_line1 iss_line2 0%Z () 0%Z (6778, 0, 0)%R (0, 7.66, 0)%R
                 eq_refl eq_refl)) as [st Hstate].
  exists st. split; [done|].
  by destruct (@full_state_fields_in_range noon_calendar (fixed_solver 0)
                 0%Z iss_line1 iss_line2 None st Hstate) as [Hlat _].
Defined.

Section sampler_more.
Context `{Calendar} `{Sgp4}.

Local Open Scope Z_scope.

Lemma kept_points_length (tle_line1 tle_line2 : str) (ts : list Z) :
  (length (kept_points tle_line1 tle_line2 ts) <= length ts)%nat.
Proof.
  induction ts as [|t ts IH]; [done|].
  unfold kept_points in *. cbn [omap list_omap length].
  destruct (trail_point_at tle_line1 tle_line2 t); cbn [length]; lia.
Qed.

Lemma check_datetime_ok (us : Z) :
  DATETIME_MIN <= us <= DATETIME_MAX → check_datetime us = Ok us.
Proof.
  intros [Hlo Hhi]. unfold check_datetime.
  apply Z.leb_le in Hlo, Hhi. by rewrite Hlo, Hhi.
Qed.

Lemma check_timedelta_ok (us : Z) :
  TIMEDELTA_MIN <= us <= TIMEDELTA_MAX → check_timedelta us = Ok us.
Proof.
  intros [Hlo Hhi]. unfold check_timedelta.
  apply Z.leb_le in Hlo, Hhi. by rewrite Hlo, Hhi.
Qed.

Lemma datetime_within_timedelta (us : Z) :
  - DATETIME_MAX <= us <= DATETIME_MAX →
  TIMEDELTA_MIN <= us <= TIMEDELTA_MAX.
Proof.
  unfold DATETIME_MAX, TIMEDELTA_MIN, TIMEDELTA_MAX, US_PER_DAY, US_PER_SECOND.
  lia.
Qed.

(** X20: for any positive step and any non-negative window, the trail is
    made of the samples that raise nothing, in time order: the past arc
    from [center - past] in steps up to the last instant not after the
    centre, the future arc from [center + step] up to the last instant not
    after [center + future].  A failing sample is left out and changes no
    other point, so the arcs have at most [past*60/step + 1] and
    [future*60/step] points. *)
Theorem trail_keeps_the_samples_that_succeed
    (utcnow : Z) (tle_line1 tle_line2 : str) (center_dt : option Z)
    (past_minutes future_minutes step_seconds : Z) (fuel : nat) :
  let center := default utcnow center_dt in
  let step := step_seconds * 1000000 in
  let n_past := S (Z.to_nat (past_minutes * 60 / step_seconds)) in
  let n_future := Z.to_nat (future_minutes * 60 / step_seconds) in
  let past_instants := instants (center - past_minutes * 60000000) step n_past in
  let future_instants := instants (center + step) step n_future in
  0 < step_seconds → 0 <= past_minutes → 0 <= future_minutes →
  DATETIME_MIN <= center - past_minutes * 60000000 →
  center + future_minutes * 60000000 + step <= DATETIME_MAX →
  (n_past < fuel)%nat → (n_future < fuel)%nat →
  compute_orbit_trail fuel utcnow tle_line1 tle_line2 center_dt
    past_minutes future_minutes step_seconds
  = Some (Ok {| past := kept_points tle_line1 tle_line2 past_instants;
                future := kept_points tle_line1 tle_line2 future_instants |})
  ∧ (length (kept_points tle_line1 tle_line2 past_instants) <= n_past)%nat
  ∧ (length (kept_points tle_line1 tle_line2 future_instants) <= n_future)%nat.
Proof.
  intros center step n_past n_future past_instants future_instants
    Hstep Hpast Hfuture Hlo Hhi Hfuel1 Hfuel2.
  set (qp := past_minutes * 60 / step_seconds) in *.
  set (qf := future_minutes * 60 / step_seconds) in *.
  assert (0 <= qp) as Hqp by (apply Z.div_pos; lia).
  assert (0 <= qf) as Hqf by (apply Z.div_pos; lia).
  pose proof (Z.mul_div_le (past_minutes * 60) step_seconds Hstep) as Hqp1.
  pose proof (Z.mul_succ_div_gt (past_minutes * 60) step_seconds Hstep) as Hqp2.
  pose proof (Z.mul_div_le (future_minutes * 60) step_seconds Hstep) as Hqf1.
  pose proof (Z.mul_succ_div_gt (future_minutes * 60) step_seconds Hstep)
    as Hqf2.
  fold qp in Hqp1, Hqp2. fold qf in Hqf1, Hqf2.
  assert (DATETIME_MIN = 0) as Hmin by done.
  assert (timedelta_minutes past_minutes = Ok (past_minutes * 60000000))
    as Hback.
  { unfold timedelta_minutes, US_PER_SECOND.
    replace (past_minutes * 60 * 1000000) with (past_minutes * 60000000) by lia.
    apply check_timedelta_ok, datetime_within_timedelta. lia. }
  assert (timedelta_minutes future_minutes = Ok (future_minutes * 60000000))
    as Hahead.
  { unfold timedelta_minutes, US_PER_SECOND.
    replace (future_minutes * 60 * 1000000)
      with (future_minutes * 60000000) by lia.
    apply check_timedelta_ok, datetime_within_timedelta. lia. }
  assert (timedelta_seconds step_seconds = Ok step) as Hdelta.
  { unfold timedelta_seconds, US_PER_SECOND. fold step.
    apply check_timedelta_ok, datetime_within_timedelta. lia. }
  assert (0 < step) as Hstep' by lia.
  split; [|split].
  - unfold compute_orbit_trail. fold center.
    rewrite (result_bind_ok _ _ _ Hback).
    unfold datetime_sub. rewrite check_datetime_ok by lia.
    rewrite (walk_spec tle_line1 tle_line2 step_seconds step center n_past
               Hdelta Hstep' fuel _ [] Hfuel1).
    2: { intros k Hk. unfold n_past in Hk.
         assert (Z.of_nat k <= qp) as Hkq by lia.
         assert (Z.of_nat k * step_seconds <= qp * step_seconds) as Hmul
           by (apply Z.mul_le_mono_nonneg_r; lia).
         lia. }
    2: { unfold n_past. rewrite Nat2Z.inj_succ, Z2Nat.id by done. lia. }
    2: { intros _. unfold n_past. rewrite Nat2Z.inj_succ, Z2Nat.id by done.
         lia. }
    rewrite (result_bind_ok _ _ _ Hdelta).
    unfold datetime_add. rewrite check_datetime_ok by lia.
    cbn [mbind result_bind]. rewrite Hahead. cbn [mbind result_bind].
    rewrite check_datetime_ok by lia. cbn [mbind result_bind mret result_ret].
    rewrite (walk_spec tle_line1 tle_line2 step_seconds step
               (center + future_minutes * 60000000) n_future
               Hdelta Hstep' fuel _ [] Hfuel2).
    2: { intros k Hk. unfold n_future in Hk.
         assert (Z.of_nat k + 1 <= qf) as Hkq by lia.
         assert ((Z.of_nat k + 1) * step_seconds <= qf * step_seconds) as Hmul
           by (apply Z.mul_le_mono_nonneg_r; lia).
         lia. }
    2: { unfold n_future. rewrite Z2Nat.id by done. lia. }
    2: { intros _. unfold n_future. rewrite Z2Nat.id by done. lia. }
    by rewrite !app_nil_l.
  - etrans; [apply kept_points_length|]. unfold past_instants.
    by rewrite instants_length.
  - etrans; [apply kept_points_length|]. unfold future_instants.
    by rewrite instants_length.
Qed.

Lemma walk_never_advances (tle_line1 tle_line2 : str) (t end_t : Z)
    (fuel : nat) (points : list trail_point) :
  t <= end_t → DATETIME_MIN <= t <= DATETIME_MAX →
  walk fuel tle_line1 tle_line2 0 t end_t points = None.
Proof.
  intros Hle Hrange. revert points.
  induction fuel as [|fuel IH]; intros points; [done|].
  cbn [walk]. apply Z.leb_le in Hle as ->.
  assert (timedelta_seconds 0 = Ok 0) as -> by done.
  cbn [mbind result_bind]. unfold datetime_add.
  rewrite Z.add_0_r, check_datetime_ok by done. apply IH.
Qed.

(** X21: with [step_seconds = 0] the first loop never leaves its starting
    instant: the function does not return, however long it runs. *)
Theorem zero_step_never_returns
    (utcnow : Z) (tle_line1 tle_line2 : str) (center_dt : option Z)
    (past_minutes future_minutes : Z) :
  let center := default utcnow center_dt in
  0 <= past_minutes →
  DATETIME_MIN <= center - past_minutes * 60000000 →
  center <= DATETIME_MAX →
  ∀ fuel : nat,
    compute_orbit_trail fuel utcnow tle_line1 tle_line2 center_dt
      past_minutes future_minutes 0 = None.
Proof.
  intros center Hpast Hlo Hhi fuel.
  assert (DATETIME_MIN = 0) as Hmin by done.
  unfold compute_orbit_trail. fold center.
  assert (timedelta_minutes past_minutes = Ok (past_minutes * 60000000)) as ->.
  { unfold timedelta_minutes, US_PER_SECOND.
    replace (past_minutes * 60 * 1000000) with (past_minutes * 60000000) by lia.
    apply check_timedelta_ok, datetime_within_timedelta. lia. }
  cbn [mbind result_bind]. unfold datetime_sub.
  rewrite check_datetime_ok by lia.
  rewrite walk_never_advances; [done|lia|lia].
Qed.

Lemma walk_backwards_overflows (tle_line1 tle_line2 : str)
    (step_seconds step end_t : Z) (n : nat) :
  timedelta_seconds step_seconds = Ok step → step < 0 →
  ∀ (fuel : nat) (t : Z) (points : list trail_point),
    (n <= fuel)%nat →
    t <= end_t → DATETIME_MIN <= t <= DATETIME_MAX →
    t < DATETIME_MIN + Z.of_nat n * (- step) →
    walk fuel tle_line1 tle_line2 step_seconds t end_t points
    = Some (Err (OverflowError (of_string "date value out of range"))).
Proof.
  intros Hdelta Hneg. induction n as [|n IH];
    intros fuel t points Hfuel Hle Hrange Hnear; [lia|].
  destruct fuel as [|fuel]; [lia|]. cbn [walk].
  apply Z.leb_le in Hle as Hleb. rewrite Hleb.
  rewrite (result_bind_ok _ _ _ Hdelta).
  destruct (Z.lt_ge_cases (t + step) DATETIME_MIN) as [Hout|Hin].
  - unfold datetime_add, check_datetime.
    apply Z.leb_gt in Hout. by rewrite Hout.
  - unfold datetime_add. rewrite check_datetime_ok by lia.
    apply IH; lia.
Qed.

(** X22: with a negative step the first loop walks backwards from
    [center - past] and ends when it leaves the range of [datetime]: the
    function raises [OverflowError]. *)
Theorem negative_step_raises_overflow
    (utcnow : Z) (tle_line1 tle_line2 : str) (center_dt : option Z)
    (past_minutes future_minutes step_seconds : Z) :
  let center := default utcnow center_dt in
  step_seconds < 0 →
  TIMEDELTA_MIN <= step_seconds * 1000000 →
  0 <= past_minutes →
  DATETIME_MIN <= center - past_minutes * 60000000 →
  center <= DATETIME_MAX →
  ∃ enough : nat, ∀ fuel : nat,
    (enough <= fuel)%nat →
    compute_orbit_trail fuel utcnow tle_line1 tle_line2 center_dt
      past_minutes future_minutes step_seconds
    = Some (Err (OverflowError (of_string "date value out of range"))).
Proof.
  intros center Hneg Htd Hpast Hlo Hhi.
  assert (DATETIME_MIN = 0) as Hmin by done.
  exists (S (Z.to_nat (center - past_minutes * 60000000))).
  intros fuel Hfuel.
  unfold compute_orbit_trail. fold center.
  assert (timedelta_minutes past_minutes = Ok (past_minutes * 60000000)) as ->.
  { unfold timedelta_minutes, US_PER_SECOND.
    replace (past_minutes * 60 * 1000000) with (past_minutes * 60000000) by lia.
    apply check_timedelta_ok, datetime_within_timedelta. lia. }
  cbn [mbind result_bind]. unfold datetime_sub.
  rewrite check_datetime_ok by lia.
  assert (timedelta_seconds step_seconds = Ok (step_seconds * 1000000))
    as Hdelta.
  { unfold timedelta_seconds, US_PER_SECOND. apply check_timedelta_ok.
    unfold TIMEDELTA_MAX, US_PER_DAY, US_PER_SECOND. lia. }
  rewrite (walk_backwards_overflows tle_line1 tle_line2 step_seconds
             (step_seconds * 1000000) center
             (S (Z.to_nat (center - past_minutes * 60000000)))
             Hdelta ltac:(lia) fuel _ [] Hfuel); [done|lia|lia|].
  rewrite Nat2Z.inj_succ, Z2Nat.id by lia. nia.
Qed.

End sampler_more.

Lemma trail_keeps_witness :
  ∃ tr : trail,
    @compute_orbit_trail noon_calendar (fixed_solver 6) 10 0
      iss_line1 iss_line2 (Some 600000000%Z) 10 5 120 = Some (Ok tr)
    ∧ (length (past tr) <= 6)%nat ∧ (length (future tr) <= 2)%nat.
Proof.
  destruct (@trail_keeps_the_samples_that_succeed
              noon_calendar (fixed_solver 6) 0%Z iss_line1 iss_line2
              (Some 600000000%Z) 10 5 120 10%nat
              ltac:(done) ltac:(done) ltac:(done) ltac:(done) ltac:(done)
              ltac:(vm_compute; lia) ltac:(vm_compute; lia))
    as (Hrun & Hpast & Hfuture).
  eexists. split; [exact Hrun|]. split; [exact Hpast|exact Hfuture].
Defined.

Lemma zero_step_witness :
  @compute_orbit_trail noon_calendar (fixed_solver 0) 1000 0
    iss_line1 iss_line2 (Some 1800000000%Z) 30 30 0 = None.
Proof.
  apply (@zero_step_never_returns noon_calendar (fixed_solver 0) 0%Z
           iss_line1 iss_line2 (Some 1800000000%Z) 30 30
           ltac:(done) ltac:(done) ltac:(done)).
Defined.

Lemma negative_step_witness :
  ∃ enough : nat, ∀ fuel : nat,
    (enough <= fuel)%nat →
    @compute_orbit_trail noon_calendar (fixed_solver 0) fuel 0
      iss_line1 iss_line2 (Some 1800000000%Z) 30 30 (-30)
    = Some (Err (OverflowError (of_string "date value out of range"))).
Proof.
  apply (@negative_step_raises_overflow noon_calendar (fixed_solver 0) 0%Z
           iss_line1 iss_line2 (Some 1800000000%Z) 30 30 (-30)
           ltac:(done) ltac:(done) ltac:(done) ltac:(done) ltac:(done)).
Defined.
